(** * Polymarket paper-trading bot: market timing and position ledger

    Shallow embedding of [src/main.py]: the window clock
    ([get_market_end_time], [seconds_left]), the ledger operations
    ([enter_trade], [close_trade], [reset]) and the feed callback
    ([on_message]), followed by the properties of the specification that
    concern them.

    Conventions of the embedding.
    - Python floats (balance, prices, share counts, seconds) are exact
      rationals [Q]; wherever the source compares two floats the model
      compares with [Qeq]/[Qle], and equalities between amounts are stated
      with [==].
    - A naive UTC [datetime] is the number of microseconds elapsed since a
      midnight; [minute], [second] and [microsecond] are its calendar fields.
    - The module-level globals are the fields of [world]; the wall clock is
      the oracle [clock], read by [utcnow], one reading per call.
    - A Python exception is the outcome [Raise]; the world reached when the
      exception is raised is kept, as the interpreter keeps it. *)

From Stdlib Require Import ZArith QArith Qabs List String Bool Lia Lqa.
Import ListNotations.

Local Open Scope Q_scope.

(** ** Configuration *)

Definition INITIAL_BALANCE : Q := 100.
Definition POSITION_SIZE : Q := 5.
Definition MAX_CONCURRENT_POSITIONS : nat := 2.
Definition ENTRY_PRICE : Q := 85 # 100.
Definition ENTRY_TOLERANCE : Q := 2 # 1000.
Definition STOP_LOSS : Q := 75 # 100.
Definition TAKE_PROFIT : Q := 95 # 100.
Definition MIN_SECONDS_TO_RESOLUTION : Q := 60.

(** ** Data model *)

(** A naive UTC timestamp, in microseconds. *)
Definition datetime := Z.

Definition microsecond (t : datetime) : Z := (t mod 1000000)%Z.
Definition second (t : datetime) : Z := ((t / 1000000) mod 60)%Z.
Definition minute (t : datetime) : Z := ((t / 60000000) mod 60)%Z.

(** [timedelta(seconds=n)], and [d.total_seconds()] of a difference. *)
Definition timedelta (seconds : Z) : Z := (seconds * 1000000)%Z.
Definition total_seconds (d : Z) : Q := d # 1000000.

(** A market identifier as the feed gives it: a string, or Python's [None]. *)
Definition market_id := option string.

(** The dictionary built by [enter_trade]. *)
Record position := Position {
  pos_market_id : market_id;
  side : string;
  entry_price : Q;
  size : Q;
  shares : Q;
  entry_time : datetime;
  stop_loss : Q;
  take_profit : Q;
  current_price : Q
}.

(** The dictionary built by [close_trade]: the position's entries and three
    more. *)
Record trade := Trade {
  closed : position;
  exit_price : Q;
  pnl : Q;
  reason : string
}.

(** One price level of the book; only its price is read. *)
Record level := Level { price : Q }.

(** A decoded feed message: each of the keys ['market'], ['bids'] and
    ['asks'] is present or absent. *)
Record message := Message {
  msg_market : option market_id;
  msg_bids : option (list level);
  msg_asks : option (list level)
}.

(** The globals of the module and the wall clock.  [active] is never read
    nor written after its initialisation and is left out. *)
Record world := World {
  balance : Q;
  positions : list position;
  trades : list trade;
  current_market_id : market_id;
  market_end_time : option datetime;
  clock : nat -> datetime;
  reads : nat
}.

Definition initial_world (clk : nat -> datetime) : world :=
  {| balance := INITIAL_BALANCE; positions := []; trades := [];
     current_market_id := None; market_end_time := None;
     clock := clk; reads := 0 |}.

(** ** Comparisons of the source *)

Definition Qltb (x y : Q) : bool := negb (Qle_bool y x).

Definition market_id_eqb (a b : market_id) : bool :=
  match a, b with
  | None, None => true
  | Some x, Some y => String.eqb x y
  | _, _ => false
  end.

(** Equality of two position dictionaries, entry by entry. *)
Definition position_eqb (p q : position) : bool :=
  market_id_eqb (pos_market_id p) (pos_market_id q)
  && String.eqb (side p) (side q)
  && Qeq_bool (entry_price p) (entry_price q)
  && Qeq_bool (size p) (size q)
  && Qeq_bool (shares p) (shares q)
  && Z.eqb (entry_time p) (entry_time q)
  && Qeq_bool (stop_loss p) (stop_loss q)
  && Qeq_bool (take_profit p) (take_profit q)
  && Qeq_bool (current_price p) (current_price q).

(** ** Effects: globals, clock and exceptions *)

Inductive exn := ValueError | ZeroDivisionError.

Inductive outcome (A : Type) :=
| Ret (a : A)
| Raise (e : exn).
Arguments Ret {A} a.
Arguments Raise {A} e.

Definition M (A : Type) : Type := world -> outcome A * world.

Definition ret {A} (a : A) : M A := fun w => (Ret a, w).
Definition raise {A} (e : exn) : M A := fun w => (Raise e, w).
Definition bind {A B} (m : M A) (k : A -> M B) : M B :=
  fun w => match m w with
           | (Ret a, w') => k a w'
           | (Raise e, w') => (Raise e, w')
           end.
Definition gets {A} (f : world -> A) : M A := fun w => (Ret (f w), w).
Definition modify (f : world -> world) : M unit := fun w => (Ret tt, f w).

Notation "x <- m ;; k" := (bind m (fun x => k))
  (at level 61, m at next level, right associativity).
Notation "m ;;; k" := (bind m (fun _ => k))
  (at level 61, right associativity).

Definition set_balance (b : Q) (w : world) : world :=
  {| balance := b; positions := positions w; trades := trades w;
     current_market_id := current_market_id w;
     market_end_time := market_end_time w;
     clock := clock w; reads := reads w |}.
Definition set_positions (ps : list position) (w : world) : world :=
  {| balance := balance w; positions := ps; trades := trades w;
     current_market_id := current_market_id w;
     market_end_time := market_end_time w;
     clock := clock w; reads := reads w |}.
Definition set_trades (ts : list trade) (w : world) : world :=
  {| balance := balance w; positions := positions w; trades := ts;
     current_market_id := current_market_id w;
     market_end_time := market_end_time w;
     clock := clock w; reads := reads w |}.
Definition set_current_market_id (m : market_id) (w : world) : world :=
  {| balance := balance w; positions := positions w; trades := trades w;
     current_market_id := m;
     market_end_time := market_end_time w;
     clock := clock w; reads := reads w |}.
Definition set_market_end_time (e : option datetime) (w : world) : world :=
  {| balance := balance w; positions := positions w; trades := trades w;
     current_market_id := current_market_id w;
     market_end_time := e;
     clock := clock w; reads := reads w |}.
Definition tick (w : world) : world :=
  {| balance := balance w; positions := positions w; trades := trades w;
     current_market_id := current_market_id w;
     market_end_time := market_end_time w;
     clock := clock w; reads := S (reads w) |}.

(** [datetime.utcnow()]: the next reading of the clock. *)
Definition utcnow : M datetime :=
  fun w => (Ret (clock w (reads w)), tick w).

(** Float division: a zero divisor raises. *)
Definition truediv (x y : Q) : M Q :=
  if Qeq_bool y 0 then raise ZeroDivisionError else ret (x / y).

(** [max(0, x)]. *)
Definition max0 (x : Q) : Q := if Qle_bool x 0 then 0 else x.

(** [l.remove(x)]: drops the first entry equal to [x]; [None] when there is
    none (the caller raises [ValueError]). *)
Fixpoint list_remove (p : position) (l : list position)
  : option (list position) :=
  match l with
  | [] => None
  | q :: l' =>
      if position_eqb q p then Some l'
      else match list_remove p l' with
           | Some r => Some (q :: r)
           | None => None
           end
  end.

(** [for x in l: body]. *)
Fixpoint for_each {A} (l : list A) (body : A -> M unit) : M unit :=
  match l with
  | [] => ret tt
  | x :: l' => body x ;;; for_each l' body
  end.

(** ** Clock and window tracker *)

(** The body of [get_market_end_time] once the clock has been read. *)
Definition get_market_end_time_at (now : datetime) : datetime :=
  let seconds := ((second now + minute now * 60) mod 300)%Z in
  if (seconds =? 0)%Z then (now + timedelta 300)%Z
  else (now + timedelta (300 - seconds))%Z.

Definition get_market_end_time : M datetime :=
  now <- utcnow ;;
  ret (get_market_end_time_at now).

Definition seconds_left : M Q :=
  e <- gets market_end_time ;;
  match e with
  | Some end_time =>
      now <- utcnow ;;
      ret (max0 (total_seconds (end_time - now)))
  | None => ret 300
  end.

(** ** Trading engine *)

Definition enter_trade (side_ : string) (price_ : Q) (secs : Q)
  : M (option position) :=
  b <- gets balance ;;
  if Qltb b POSITION_SIZE then ret None
  else
    mid <- gets current_market_id ;;
    sh <- truediv POSITION_SIZE price_ ;;
    now <- utcnow ;;
    let pos := {| pos_market_id := mid; side := side_;
                  entry_price := price_; size := POSITION_SIZE;
                  shares := sh; entry_time := now;
                  stop_loss := STOP_LOSS; take_profit := TAKE_PROFIT;
                  current_price := price_ |} in
    modify (fun w => set_positions (positions w ++ [pos]) w) ;;;
    modify (fun w => set_balance (balance w - POSITION_SIZE) w) ;;;
    ret (Some pos).

Definition close_trade (pos : position) (exit_price_ : Q) (reason_ : string)
  : M trade :=
  let pnl_ :=
    if String.eqb (side pos) "YES"
    then (exit_price_ - entry_price pos) * shares pos
    else (entry_price pos - exit_price_) * shares pos in
  modify (fun w => set_balance (balance w + (size pos + pnl_)) w) ;;;
  let record := {| closed := pos; exit_price := exit_price_;
                   pnl := pnl_; reason := reason_ |} in
  modify (fun w => set_trades (trades w ++ [record]) w) ;;;
  ps <- gets positions ;;
  match list_remove pos ps with
  | Some ps' => modify (set_positions ps') ;;; ret record
  | None => raise ValueError
  end.

(** One side of the entry rule of [on_message]: the best level of [book],
    when there is one and it is within tolerance of the target price. *)
Definition try_entry (side_ : string) (book : list level) (secs : Q)
  : M unit :=
  match book with
  | best :: _ =>
      if Qle_bool (Qabs (price best - ENTRY_PRICE)) ENTRY_TOLERANCE
      then enter_trade side_ (price best) secs ;;; ret tt
      else ret tt
  | [] => ret tt
  end.

(** First block of [on_message]: a message whose ['market'] differs from
    the tracked identifier replaces it and recomputes the deadline. *)
Definition track_market (data : message) : M unit :=
  cur <- gets current_market_id ;;
  match msg_market data with
  | Some m =>
      if negb (market_id_eqb m cur) then
        modify (set_current_market_id m) ;;;
        e <- get_market_end_time ;;
        modify (set_market_end_time (Some e))
      else ret tt
  | None => ret tt
  end.

(** Second block of [on_message]: a message with both ['bids'] and ['asks']
    is a quote; the entry rule, then the loop over a copy of the open
    positions, whose body is [pass]. *)
Definition handle_quote (data : message) : M unit :=
  match msg_bids data, msg_asks data with
  | Some bids, Some asks =>
      secs <- seconds_left ;;
      ps <- gets positions ;;
      (if Qle_bool secs MIN_SECONDS_TO_RESOLUTION
          && (List.length ps <? MAX_CONCURRENT_POSITIONS)%nat
       then
         try_entry "YES" asks secs ;;;
         try_entry "NO" bids secs
       else ret tt) ;;;
      ps' <- gets positions ;;
      for_each ps' (fun _ => ret tt)
  | _, _ => ret tt
  end.

(** The websocket handle [ws] is not used by the callback and is left out. *)
Definition on_message (data : message) : M unit :=
  track_market data ;;;
  handle_quote data.

(** The body of the [/reset] handler (the reply to the user apart). *)
Definition reset : M unit :=
  modify (set_balance INITIAL_BALANCE) ;;;
  modify (set_positions []) ;;;
  modify (set_trades []).

(** The [restricted] decorator: the handler runs only for an allowed user. *)
Definition restricted (allowed : list Z) (user : Z) (func : M unit) : M unit :=
  if existsb (Z.eqb user) allowed then func else ret tt.

(** ** Runs of ledger operations and of feed messages *)




(** The feed callback on each message of [msgs] in order. *)
Fixpoint run_messages (msgs : list message) : M unit :=
  match msgs with
  | [] => ret tt
  | d :: rest => on_message d ;;; run_messages rest
  end.

(** ** Results of the ledger operations *)

(** The position that [enter_trade] builds in the world [w]. *)
Definition new_position (side_ : string) (price_ : Q) (w : world) : position :=
  {| pos_market_id := current_market_id w; side := side_;
     entry_price := price_; size := POSITION_SIZE;
     shares := POSITION_SIZE / price_; entry_time := clock w (reads w);
     stop_loss := STOP_LOSS; take_profit := TAKE_PROFIT;
     current_price := price_ |}.

(** The world that a successful [enter_trade] leaves. *)
Definition entered (side_ : string) (price_ : Q) (w : world) : world :=
  set_balance (balance w - POSITION_SIZE)
    (set_positions (positions w ++ [new_position side_ price_ w]) (tick w)).

(** The profit or loss that [close_trade] books. *)
Definition realized (pos : position) (exit_price_ : Q) : Q :=
  if String.eqb (side pos) "YES"
  then (exit_price_ - entry_price pos) * shares pos
  else (entry_price pos - exit_price_) * shares pos.

(** The world after the first two updates of [close_trade]. *)
Definition credited (pos : position) (exit_price_ : Q) (reason_ : string)
  (w : world) : world :=
  set_trades (trades w ++ [Trade pos exit_price_ (realized pos exit_price_) reason_])
    (set_balance (balance w + (size pos + realized pos exit_price_)) w).

(** ** Sums over the ledger *)

Fixpoint sum_sizes (ps : list position) : Q :=
  match ps with
  | [] => 0
  | p :: rest => size p + sum_sizes rest
  end.


(** ** Frames of the feed callback *)

(** What the quote block of [on_message] may do to a world: append at most
    [n] positions and read the clock; the trade history, the tracked market
    and its deadline stay. *)
Definition grows (n : nat) (w w' : world) : Prop :=
  exists added,
    positions w' = positions w ++ added
    /\ (List.length added <= n)%nat
    /\ balance w' == balance w - sum_sizes added
    /\ trades w' = trades w
    /\ current_market_id w' = current_market_id w
    /\ market_end_time w' = market_end_time w
    /\ clock w' = clock w
    /\ (reads w <= reads w')%nat.

(** A computation that appends at most [n] positions, whatever the world. *)
Definition adds {A} (n : nat) (m : M A) : Prop :=
  forall w, grows n w (snd (m w)).

(** ** Properties named by the specification *)


(** The invariant of a position in the data model: a positive entry price,
    a positive stake and the derived share count. *)
Definition wf_position (p : position) : Prop :=
  0 < entry_price p /\ 0 < size p /\ shares p == size p / entry_price p.

(** Every open position satisfies the invariant. *)
Definition wf_ledger (w : world) : Prop := Forall wf_position (positions w).

(** A computation that keeps it so. *)
Definition keeps_wf {A} (m : M A) : Prop :=
  forall w, wf_ledger w -> wf_ledger (snd (m w)).

(** A timestamp on a five-minute wall-clock boundary. *)
Definition aligned (t : datetime) : Prop :=
  (minute t mod 5 = 0 /\ second t = 0 /\ microsecond t = 0)%Z.

(** The rejection condition of [open] as the specification words it. *)
Definition spec_open_rejected (w : world) : Prop :=
  balance w < POSITION_SIZE
  \/ List.length (positions w) = MAX_CONCURRENT_POSITIONS.

(** The price a quote shows for a position: best ask for "YES", best bid
    otherwise. *)
Definition observed_price (p : position) (data : message) : option Q :=
  match (if String.eqb (side p) "YES" then msg_asks data else msg_bids data)
  with
  | Some (best :: _) => Some (price best)
  | _ => None
  end.

(** The exit rule as the specification words it: the reason for which a
    position is due to be closed, if any. *)
Definition spec_exit_reason (p : position) (observed secs : Q)
  : option string :=
  if String.eqb (side p) "YES" then
    if Qle_bool (take_profit p) observed then Some "take-profit"%string
    else if Qle_bool observed (stop_loss p) then Some "stop-loss"%string
    else if Qeq_bool secs 0 then Some "market resolved"%string
    else None
  else
    if Qle_bool observed (1 - take_profit p) then Some "take-profit"%string
    else if Qle_bool (1 - stop_loss p) observed then Some "stop-loss"%string
    else if Qeq_bool secs 0 then Some "market resolved"%string
    else None.

(** Exit enforcement as the specification words it, between the world [w]
    in which a quote arrives and the world [w'] it leaves. *)
Definition exit_enforced (data : message) (secs : Q) (w w' : world) : Prop :=
  forall p observed r,
    In p (positions w) ->
    observed_price p data = Some observed ->
    spec_exit_reason p observed secs = Some r ->
    ~ In p (positions w')
    /\ exists t, In t (trades w') /\ reason t = r.

(** ** Concrete inputs *)

(** A clock whose readings start at 00:04:30.000, thirty seconds before a
    boundary, one millisecond apart. *)
Definition closing_clock (n : nat) : datetime :=
  nth n [270000000; 270001000; 270002000; 270003000; 270004000;
         270005000; 270006000; 270007000; 270008000; 270009000]%Z
    270010000%Z.

(** A clock stopped at 12:03:20.500. *)
Definition half_second_clock (n : nat) : datetime := 43400500000%Z.

Definition quote (bid ask : Q) : message :=
  {| msg_market := None;
     msg_bids := Some [Level bid]; msg_asks := Some [Level ask] |}.

(** The first message of a window: the identifier and an ask at target. *)
Definition first_message (ask : Q) : message :=
  {| msg_market := Some (Some "btc-updown-5m"%string);
     msg_bids := Some []; msg_asks := Some [Level ask] |}.

(** A rollover notice. *)
Definition notice (m : string) : message :=
  {| msg_market := Some (Some m); msg_bids := None; msg_asks := None |}.

(** One "YES" position open, entered at 0.851. *)
Definition one_open : world :=
  snd (on_message (first_message 0.851) (initial_world closing_clock)).

(** Two positions open, balance 90: the cap is reached. *)
Definition two_open : world :=
  snd (run_messages [first_message 0.85; quote 0.5 0.85]
         (initial_world closing_clock)).

(** The position that [one_open] holds. *)
Definition yes_position : position :=
  {| pos_market_id := Some "btc-updown-5m"%string; side := "YES";
     entry_price := 0.851; size := POSITION_SIZE;
     shares := POSITION_SIZE / 0.851;
     entry_time := closing_clock 2;
     stop_loss := STOP_LOSS; take_profit := TAKE_PROFIT;
     current_price := 0.851 |}.


(** A position that no ledger holds. *)
Definition stray_position : position :=
  {| pos_market_id := None; side := "YES";
     entry_price := 0.85; size := POSITION_SIZE;
     shares := POSITION_SIZE / 0.85;
     entry_time := 0%Z;
     stop_loss := STOP_LOSS; take_profit := TAKE_PROFIT;
     current_price := 0.85 |}.


(** * The rest of the module *)

(** ** Connection callback *)

(** The request that [on_open] serialises and sends. *)
Record subscription := Subscription {
  method : string;
  params : list market_id
}.

(** Truth value of a market identifier: [None] and the empty string are
    false. *)
Definition truthy (m : market_id) : bool :=
  match m with
  | Some s => negb (String.eqb s "")
  | None => false
  end.

(** [on_open]: the request passed to [ws.send], if any. *)
Definition on_open : M (option subscription) :=
  cur <- gets current_market_id ;;
  if truthy cur
  then ret (Some {| method := "subscribe"; params := [cur] |})
  else ret None.

(** ** Command handlers *)

(** The figures that the reply of [/status] formats. *)
Record status_figures := StatusFigures {
  shown_balance : Q;
  total_pnl : Q;
  plus_sign : bool;
  open_count : nat;
  win_rate : Q
}.

(** [sum(1 for t in trades if t['pnl'] > 0)]. *)
Definition wins (ts : list trade) : nat :=
  List.length (filter (fun t => Qltb 0 (pnl t)) ts).

(** The body of the [/status] handler, up to the formatting of the text. *)
Definition status : M status_figures :=
  b <- gets balance ;;
  ps <- gets positions ;;
  ts <- gets trades ;;
  let total := b - INITIAL_BALANCE in
  let rate :=
    match ts with
    | [] => 0
    | _ :: _ =>
        inject_Z (Z.of_nat (wins ts)) / inject_Z (Z.of_nat (List.length ts))
        * 100
    end in
  ret {| shown_balance := b; total_pnl := total;
         plus_sign := Qltb 0 total;
         open_count := List.length ps; win_rate := rate |}.

(** The slice [l[-5:]]. *)
Definition last_five {A} (l : list A) : list A :=
  skipn (List.length l - 5) l.

(** The body of the [/history] handler, up to the formatting of the text:
    [None] for the reply "No trades yet.", else one row per listed trade,
    its mark and its pnl. *)
Definition history : M (option (list (bool * Q))) :=
  ts <- gets trades ;;
  match ts with
  | [] => ret None
  | _ :: _ =>
      ret (Some (map (fun t => (Qltb 0 (pnl t), pnl t)) (last_five ts)))
  end.

(** ** Vocabulary of the further properties *)

(** The entry test of [on_message] on a price. *)
Definition within_tolerance (p : Q) : bool :=
  Qle_bool (Qabs (p - ENTRY_PRICE)) ENTRY_TOLERANCE.

(** A computation that keeps the property [P] of the world. *)
Definition preserves {A} (P : world -> Prop) (m : M A) : Prop :=
  forall w, P w -> P (snd (m w)).

(** A clock that never goes back. *)
Definition monotone (clk : nat -> datetime) : Prop :=
  forall i j, (i <= j)%nat -> (clk i <= clk j)%Z.

(** The deadline, when set, was computed from an earlier reading. *)
Definition deadline_from_past (w : world) : Prop :=
  match market_end_time w with
  | None => True
  | Some e =>
      exists i, (i < reads w)%nat /\ e = get_market_end_time_at (clock w i)
  end.

(** What a position opened by the feed looks like. *)
Definition feed_position (p : position) : Prop :=
  (side p = "YES"%string \/ side p = "NO"%string)
  /\ within_tolerance (entry_price p) = true
  /\ size p = POSITION_SIZE
  /\ shares p = POSITION_SIZE / entry_price p
  /\ stop_loss p = STOP_LOSS
  /\ take_profit p = TAKE_PROFIT
  /\ current_price p = entry_price p.

(** A ledger that has only ever opened positions. *)
Definition feed_ledger (w : world) : Prop :=
  trades w = []
  /\ Forall feed_position (positions w)
  /\ balance w
     == INITIAL_BALANCE
        - POSITION_SIZE * inject_Z (Z.of_nat (List.length (positions w))).

(** How many entries of [l] are equal to [p]. *)
Definition occurrences (p : position) (l : list position) : nat :=
  List.length (filter (fun q => position_eqb q p) l).

(** A world whose deadline is 00:05:00 and whose clock is stopped at
    [now]; nothing open, balance 100. *)
Definition waiting_at (now : datetime) : world :=
  {| balance := INITIAL_BALANCE; positions := []; trades := [];
     current_market_id := Some "btc-updown-5m"%string;
     market_end_time := Some 300000000%Z;
     clock := fun _ => now; reads := 1 |}.

(** * Properties *)

(** ** Window deadline *)

Section WindowDeadline.

Local Open Scope Z_scope.

(** The offset inside the five-minute epoch, from the calendar fields, is
    the whole-second count modulo 300. *)
Lemma epoch_offset (now : datetime) :
  (second now + minute now * 60) mod 300 = (now / 1000000) mod 300.
Proof.
  unfold second, minute.
  replace 60000000 with (1000000 * 60) by reflexivity.
  rewrite <- Z.div_div by lia.
  generalize (now / 1000000); intro s.
  Z.div_mod_to_equations; lia.
Qed.

(** Both branches of the source add the same amount. *)
Lemma get_market_end_time_at_eq (now : datetime) :
  get_market_end_time_at now
  = now + timedelta (300 - (now / 1000000) mod 300).
Proof.
  unfold get_market_end_time_at; cbv zeta.
  rewrite epoch_offset.
  destruct (Z.eqb_spec ((now / 1000000) mod 300) 0) as [E | E].
  - rewrite E; reflexivity.
  - reflexivity.
Qed.

Lemma deadline_whole_seconds (now : datetime) :
  get_market_end_time_at now / 1000000
  = 300 * (now / 1000000 / 300 + 1).
Proof.
  rewrite get_market_end_time_at_eq; unfold timedelta.
  rewrite Z.div_add by lia.
  Z.div_mod_to_equations; lia.
Qed.

(** The deadline falls on minute 0, 5, 10, ... second 0. *)
Lemma deadline_minute (now : datetime) :
  minute (get_market_end_time_at now) mod 5 = 0.
Proof.
  unfold minute.
  replace 60000000 with (1000000 * 60) by reflexivity.
  rewrite <- Z.div_div by lia.
  rewrite deadline_whole_seconds.
  generalize (now / 1000000 / 300 + 1); intro k.
  replace (300 * k) with (5 * k * 60) by lia.
  rewrite Z.div_mul by lia.
  Z.div_mod_to_equations; lia.
Qed.

Lemma deadline_second (now : datetime) :
  second (get_market_end_time_at now) = 0.
Proof.
  unfold second. rewrite deadline_whole_seconds.
  generalize (now / 1000000 / 300 + 1); intro k.
  Z.div_mod_to_equations; lia.
Qed.

(** The sub-second part of the reading is carried into the deadline. *)
Lemma deadline_microsecond (now : datetime) :
  microsecond (get_market_end_time_at now) = microsecond now.
Proof.
  unfold microsecond.
  rewrite get_market_end_time_at_eq; unfold timedelta.
  apply Z.mod_add; lia.
Qed.

(** The deadline is after the reading, by five minutes at most. *)
Lemma deadline_ahead (now : datetime) :
  now + timedelta 1 <= get_market_end_time_at now <= now + timedelta 300.
Proof.
  rewrite get_market_end_time_at_eq; unfold timedelta.
  Z.div_mod_to_equations; lia.
Qed.

End WindowDeadline.

(** C7. Window deadline alignment, at 12:03:20.500: the deadline computed
    by [get_market_end_time] is 12:05:00.500; its minute is a multiple of
    five and its second is zero, but it carries the half second of the
    reading, so it is not on the wall-clock boundary. *)
Theorem deadline_keeps_subsecond :
  (fst (get_market_end_time (initial_world half_second_clock))
   = Ret 43500500000
   /\ get_market_end_time_at 43400500000 = 43500500000
   /\ minute 43500500000 = 5
   /\ second 43500500000 = 0
   /\ microsecond 43500500000 = 500000
   /\ ~ aligned (get_market_end_time_at 43400500000))%Z.
Proof.
  repeat split; try reflexivity.
  intros (_ & _ & H). vm_compute in H. discriminate.
Qed.

(** ** Sums over the ledger *)

Lemma sum_sizes_app (l1 l2 : list position) :
  sum_sizes (l1 ++ l2) == sum_sizes l1 + sum_sizes l2.
Proof.
  induction l1 as [| p l1 IH]; simpl.
  - ring.
  - rewrite IH. ring.
Qed.


(** ** Equality of positions and removal *)

Lemma market_id_eqb_refl (m : market_id) : market_id_eqb m m = true.
Proof. destruct m; simpl; [apply String.eqb_refl | reflexivity]. Qed.

Lemma position_eqb_refl (p : position) : position_eqb p p = true.
Proof.
  unfold position_eqb.
  rewrite market_id_eqb_refl, String.eqb_refl, Z.eqb_refl, !Qeq_bool_refl.
  reflexivity.
Qed.



Lemma list_remove_length (p : position) (l l' : list position) :
  list_remove p l = Some l' -> List.length l = S (List.length l').
Proof.
  revert l'; induction l as [| q l IH]; simpl; intros l' H.
  - discriminate.
  - destruct (position_eqb q p).
    + now injection H as <-.
    + destruct (list_remove p l) as [r |]; [| discriminate].
      injection H as <-. simpl. now rewrite (IH r eq_refl).
Qed.

(** A position of the list can be removed. *)
Lemma list_remove_In (p : position) (l : list position) :
  In p l -> exists l', list_remove p l = Some l'.
Proof.
  induction l as [| q l IH]; simpl; intros H.
  - contradiction.
  - destruct (position_eqb q p) eqn:E; [eauto |].
    destruct H as [-> | H].
    + rewrite position_eqb_refl in E; discriminate.
    + destruct (IH H) as [l' ->]; eauto.
Qed.

(** A position equal to none of the list cannot. *)
Lemma list_remove_none (p : position) (l : list position) :
  existsb (fun q => position_eqb q p) l = false -> list_remove p l = None.
Proof.
  induction l as [| q l IH]; simpl; intros H.
  - reflexivity.
  - apply orb_false_elim in H as [-> H]. now rewrite IH.
Qed.

(** ** The ledger operations, case by case *)

Lemma Qltb_lt (x y : Q) : Qltb x y = true <-> x < y.
Proof.
  unfold Qltb. rewrite negb_true_iff, <- not_true_iff_false, Qle_bool_iff.
  split; [apply Qnot_le_lt | apply Qlt_not_le].
Qed.

Lemma enter_trade_rejected side_ price_ secs w :
  Qltb (balance w) POSITION_SIZE = true ->
  enter_trade side_ price_ secs w = (Ret None, w).
Proof.
  intro H. unfold enter_trade, bind, gets. now rewrite H.
Qed.

Lemma enter_trade_zero side_ price_ secs w :
  Qltb (balance w) POSITION_SIZE = false ->
  Qeq_bool price_ 0 = true ->
  enter_trade side_ price_ secs w = (Raise ZeroDivisionError, w).
Proof.
  intros H Z. unfold enter_trade, bind, gets, truediv. now rewrite H, Z.
Qed.

Lemma enter_trade_accepted side_ price_ secs w :
  Qltb (balance w) POSITION_SIZE = false ->
  Qeq_bool price_ 0 = false ->
  enter_trade side_ price_ secs w
  = (Ret (Some (new_position side_ price_ w)), entered side_ price_ w).
Proof.
  intros H Z. unfold enter_trade, bind, gets, truediv. now rewrite H, Z.
Qed.

Lemma close_trade_eq pos exit_price_ reason_ w :
  close_trade pos exit_price_ reason_ w =
  match list_remove pos (positions w) with
  | Some ps' =>
      (Ret (Trade pos exit_price_ (realized pos exit_price_) reason_),
       set_positions ps' (credited pos exit_price_ reason_ w))
  | None => (Raise ValueError, credited pos exit_price_ reason_ w)
  end.
Proof.
  unfold close_trade, bind, gets, modify, credited, realized; simpl.
  destruct (list_remove pos (positions w)); reflexivity.
Qed.

(** ** Balance conservation *)








(** ** What a quote can change *)

Lemma grows_refl n w : grows n w w.
Proof.
  exists []. rewrite app_nil_r. simpl.
  repeat split; auto; try lia. ring.
Qed.

Lemma grows_trans n m w1 w2 w3 :
  grows n w1 w2 -> grows m w2 w3 -> grows (n + m) w1 w3.
Proof.
  intros (a1 & P1 & L1 & B1 & T1 & C1 & E1 & K1 & R1)
         (a2 & P2 & L2 & B2 & T2 & C2 & E2 & K2 & R2).
  exists (a1 ++ a2). repeat split; try congruence; try lia.
  - now rewrite P2, P1, app_assoc.
  - rewrite length_app. lia.
  - rewrite B2, B1, sum_sizes_app. ring.
Qed.

Lemma grows_le n m w w' : (n <= m)%nat -> grows n w w' -> grows m w w'.
Proof.
  intros L (a & P & La & R). exists a. repeat split; try apply R; auto; lia.
Qed.

Lemma adds_ret {A} (a : A) : adds 0 (ret a).
Proof. intro w. apply grows_refl. Qed.

Lemma adds_gets {A} (f : world -> A) : adds 0 (gets f).
Proof. intro w. apply grows_refl. Qed.

Lemma adds_bind {A B} n m (c : M A) (k : A -> M B) :
  adds n c -> (forall a, adds m (k a)) -> adds (n + m) (bind c k).
Proof.
  intros Hc Hk w. unfold bind. specialize (Hc w).
  destruct (c w) as [[a | e] w1]; simpl in Hc.
  - exact (grows_trans _ _ _ _ _ Hc (Hk a w1)).
  - simpl. apply (grows_le n); [lia | exact Hc].
Qed.

Lemma adds_le {A} n m (c : M A) : (n <= m)%nat -> adds n c -> adds m c.
Proof. intros L H w. exact (grows_le _ _ _ _ L (H w)). Qed.

Lemma adds_utcnow : adds 0 utcnow.
Proof.
  intro w. exists []. simpl. rewrite app_nil_r.
  repeat split; auto. ring.
Qed.

Lemma adds_seconds_left : adds 0 seconds_left.
Proof.
  unfold seconds_left. apply (adds_bind 0 0); [apply adds_gets |].
  intros [e |]; [| apply adds_ret].
  apply (adds_bind 0 0); [apply adds_utcnow | intro; apply adds_ret].
Qed.

Lemma adds_enter_trade side_ price_ secs : adds 1 (enter_trade side_ price_ secs).
Proof.
  intro w.
  destruct (Qltb (balance w) POSITION_SIZE) eqn:B.
  - rewrite enter_trade_rejected by assumption. apply grows_refl.
  - destruct (Qeq_bool price_ 0) eqn:Z.
    + rewrite enter_trade_zero by assumption. apply grows_refl.
    + rewrite enter_trade_accepted by assumption.
      exists [new_position side_ price_ w]. simpl.
      repeat split; auto; try lia; try ring.
Qed.

Lemma adds_try_entry side_ book secs : adds 1 (try_entry side_ book secs).
Proof.
  unfold try_entry. destruct book as [| best book].
  - apply (adds_le 0); [lia | apply adds_ret].
  - destruct (Qle_bool _ _).
    + apply (adds_bind 1 0); [apply adds_enter_trade | intro; apply adds_ret].
    + apply (adds_le 0); [lia | apply adds_ret].
Qed.

(** The loop of [on_message] over the open positions does nothing. *)
Lemma for_each_pass {A} (l : list A) (w : world) :
  for_each l (fun _ => ret tt) w = (Ret tt, w).
Proof.
  induction l as [| x l IH]; simpl; [reflexivity |].
  unfold bind, ret at 1. exact IH.
Qed.

Lemma adds_for_each_pass {A} (l : list A) : adds 0 (for_each l (fun _ => ret tt)).
Proof. intro w. rewrite for_each_pass. apply grows_refl. Qed.

Lemma adds_handle_quote data : adds 2 (handle_quote data).
Proof.
  unfold handle_quote.
  destruct (msg_bids data) as [bids |]; [| apply (adds_le 0); [lia | apply adds_ret]].
  destruct (msg_asks data) as [asks |]; [| apply (adds_le 0); [lia | apply adds_ret]].
  apply (adds_bind 0 2); [apply adds_seconds_left | intro secs].
  apply (adds_bind 0 2); [apply adds_gets | intro ps].
  apply (adds_bind 2 0).
  - destruct (_ && _).
    + apply (adds_bind 1 1); [apply adds_try_entry | intro; apply adds_try_entry].
    + apply (adds_le 0); [lia | apply adds_ret].
  - intros _. apply (adds_bind 0 0); [apply adds_gets | intro; apply adds_for_each_pass].
Qed.

(** ** The rollover block *)

Lemma track_market_same data w :
  msg_market data = None \/ msg_market data = Some (current_market_id w) ->
  track_market data w = (Ret tt, w).
Proof.
  unfold track_market, bind, gets. intros [-> | ->]; [reflexivity |].
  now rewrite market_id_eqb_refl.
Qed.

Lemma track_market_rollover data m w :
  msg_market data = Some m ->
  market_id_eqb m (current_market_id w) = false ->
  track_market data w
  = (Ret tt,
     set_market_end_time (Some (get_market_end_time_at (clock w (reads w))))
       (tick (set_current_market_id m w))).
Proof.
  unfold track_market, bind, gets. intros -> ->. reflexivity.
Qed.

Lemma track_market_returns data w : fst (track_market data w) = Ret tt.
Proof.
  unfold track_market, bind, gets.
  destruct (msg_market data) as [m |]; [| reflexivity].
  destruct (market_id_eqb m (current_market_id w)); reflexivity.
Qed.

(** The rollover block leaves the ledger as it is. *)
Lemma track_market_ledger data w :
  let w' := snd (track_market data w) in
  balance w' = balance w /\ positions w' = positions w
  /\ trades w' = trades w.
Proof.
  unfold track_market, bind, gets.
  destruct (msg_market data) as [m |]; [| simpl; auto].
  destruct (market_id_eqb m (current_market_id w)); simpl; auto.
Qed.

Lemma on_message_eq data w :
  on_message data w = handle_quote data (snd (track_market data w)).
Proof.
  unfold on_message, bind. pose proof (track_market_returns data w) as H.
  destruct (track_market data w) as [[[] | e] w1]; [reflexivity | discriminate].
Qed.

Lemma on_message_grows data w :
  grows 2 (snd (track_market data w)) (snd (on_message data w)).
Proof. rewrite on_message_eq. apply adds_handle_quote. Qed.

(** ** Seconds remaining *)

Lemma seconds_left_unset w :
  market_end_time w = None -> seconds_left w = (Ret 300, w).
Proof. unfold seconds_left, bind, gets. now intros ->. Qed.

Lemma seconds_left_set w e :
  market_end_time w = Some e ->
  seconds_left w
  = (Ret (max0 (total_seconds (e - clock w (reads w)))), tick w).
Proof. unfold seconds_left, bind, gets. now intros ->. Qed.

(** Read less than a second after the deadline was computed, the time that
    remains is positive and at most five minutes. *)
Lemma remaining_after_rollover (now later : datetime) :
  (now <= later < now + timedelta 1)%Z ->
  let secs := max0 (total_seconds (get_market_end_time_at now - later)) in
  0 < secs /\ secs <= 300.
Proof.
  intros H. pose proof (deadline_ahead now) as D.
  unfold timedelta in *. cbv zeta.
  set (d := (get_market_end_time_at now - later)%Z).
  assert (0 < d <= 300000000)%Z as Hd by (unfold d; lia).
  unfold max0, total_seconds.
  destruct (Qle_bool (d # 1000000) 0) eqn:E.
  - apply Qle_bool_iff in E. unfold Qle in E; simpl in E. lia.
  - split; [unfold Qlt | unfold Qle]; simpl; lia.
Qed.

(** ** Concurrency cap *)

(** C2. Concurrency cap, on a quote whose best ask (0.851) and best bid
    (0.849) are both within tolerance of the target, arriving thirty
    seconds before the deadline while one position is open: the guard of
    [on_message] is evaluated once, both entries are made, and three
    positions are open, one more than [MAX_CONCURRENT_POSITIONS]; the
    second entry was made at the cap and debited the balance. *)
Theorem cap_exceeded_by_two_sided_quote :
  let w := one_open in
  let w' := snd (on_message (quote 0.849 0.851) w) in
  List.length (positions w) = 1%nat
  /\ balance w == 95
  /\ fst (on_message (quote 0.849 0.851) w) = Ret tt
  /\ List.length (positions w') = 3%nat
  /\ (MAX_CONCURRENT_POSITIONS < List.length (positions w'))%nat
  /\ balance w' == 85
  /\ List.length (positions two_open) = MAX_CONCURRENT_POSITIONS
  /\ fst (enter_trade "NO" 0.849 30 two_open) <> Ret None
  /\ ~ balance (snd (enter_trade "NO" 0.849 30 two_open))
        == balance two_open.
Proof.
  cbv zeta. repeat split; try (vm_compute; reflexivity); try (vm_compute; lia);
    intro H; vm_compute in H; discriminate.
Qed.

(** The guard bounds the excess: a quote that finds at most three positions
    leaves at most three. *)
Lemma on_message_at_most_one_over data w :
  (List.length (positions w) <= S MAX_CONCURRENT_POSITIONS)%nat ->
  (List.length (positions (snd (on_message data w)))
   <= S MAX_CONCURRENT_POSITIONS)%nat.
Proof.
  intro H. rewrite on_message_eq.
  destruct (track_market_ledger data w) as (_ & P & _).
  set (w1 := snd (track_market data w)) in *. rewrite <- P in H.
  unfold handle_quote.
  destruct (msg_bids data) as [bids |]; [| exact H].
  destruct (msg_asks data) as [asks |]; [| exact H].
  unfold bind at 1.
  pose proof (adds_seconds_left w1) as (a & Pa & La & _).
  destruct (seconds_left w1) as [[secs | e] w2]; simpl in Pa;
    destruct a; try (simpl in La; lia); rewrite app_nil_r in Pa;
    [| simpl; now rewrite Pa].
  unfold bind at 1, gets at 1.
  destruct (Qle_bool secs MIN_SECONDS_TO_RESOLUTION
            && (List.length (positions w2) <? MAX_CONCURRENT_POSITIONS)%nat)
    eqn:G.
  - apply andb_prop in G as [_ G]. apply Nat.ltb_lt in G.
    match goal with |- context [bind ?c ?k w2] =>
      pose proof (adds_bind 2 0 c k) as F end.
    match type of F with ?A -> ?B -> _ =>
      assert A as HA; [| assert B as HB; [| specialize (F HA HB w2)]] end.
    + apply (adds_bind 1 1); [apply adds_try_entry | intro; apply adds_try_entry].
    + intros _. apply (adds_bind 0 0); [apply adds_gets | intro; apply adds_for_each_pass].
    + destruct F as (b & Pb & Lb & _). rewrite Pb, length_app.
      unfold MAX_CONCURRENT_POSITIONS in *. lia.
  - unfold bind, ret, gets. rewrite for_each_pass. simpl. now rewrite Pa.
Qed.

(** ** Exits *)

Lemma yes_position_open : In yes_position (positions one_open).
Proof. vm_compute. left. reflexivity. Qed.

(** The exit rule is not enforced: [one_open] holds a "YES" position with
    take-profit 0.95, the next quote shows an ask of 0.96, and the position
    is still open afterwards. *)
Lemma exit_not_enforced :
  ~ exit_enforced (quote 0.94 0.96) 30 one_open
      (snd (on_message (quote 0.94 0.96) one_open)).
Proof.
  intro H.
  destruct (H yes_position 0.96 "take-profit"%string yes_position_open
              eq_refl eq_refl) as [N _].
  apply N. vm_compute. left. reflexivity.
Qed.

(** C3 (amended). [on_message] closes no position and updates none: after
    any message the positions that were open are still open, unchanged and
    in the same order, before the positions the message may have opened,
    and the trade history is what it was. *)
Theorem on_message_keeps_positions (data : message) (w : world) :
  let w' := snd (on_message data w) in
  (exists added, positions w' = positions w ++ added)
  /\ trades w' = trades w.
Proof.
  cbv zeta.
  destruct (on_message_grows data w) as (a & P & _ & _ & T & _).
  destruct (track_market_ledger data w) as (_ & P1 & T1).
  rewrite P1 in P. rewrite T1 in T. eauto.
Qed.

(** ** Closing *)

Lemma close_trade_untracked pos exit_price_ reason_ w :
  existsb (fun q => position_eqb q pos) (positions w) = false ->
  close_trade pos exit_price_ reason_ w
  = (Raise ValueError, credited pos exit_price_ reason_ w).
Proof.
  intro H. rewrite close_trade_eq. now rewrite (list_remove_none _ _ H).
Qed.

(** C4. Close of an untracked position, in the initial state: the call
    raises [ValueError], but only after the balance has been credited with
    the stake and the pnl and the trade record appended; the ledger is left
    partially updated. *)
Theorem close_untracked_not_atomic :
  let w := initial_world closing_clock in
  let r := close_trade stray_position 0.9 "stop-loss" w in
  positions w = []
  /\ fst r = Raise ValueError
  /\ balance w == 100
  /\ balance (snd r) == 100 + 5 + (5 # 17)
  /\ ~ balance (snd r) == balance w
  /\ List.length (trades w) = 0%nat
  /\ List.length (trades (snd r)) = 1%nat.
Proof.
  cbv zeta. repeat split; try (vm_compute; reflexivity).
  intro H. vm_compute in H. discriminate.
Qed.

Lemma realized_yes pos exit_price_ :
  side pos = "YES"%string ->
  realized pos exit_price_ = (exit_price_ - entry_price pos) * shares pos.
Proof. unfold realized. now intros ->. Qed.

Lemma realized_no pos exit_price_ :
  side pos = "NO"%string ->
  realized pos exit_price_ = (entry_price pos - exit_price_) * shares pos.
Proof. unfold realized. now intros ->. Qed.

Lemma wf_position_shares p : wf_position p -> 0 < shares p.
Proof.
  intros (E & S & H). rewrite H.
  apply Qlt_shift_div_l; [exact E |]. now rewrite Qmult_0_l.
Qed.

(** A position entered at a positive price satisfies the invariant. *)
Lemma new_position_wf side_ price_ w :
  0 < price_ -> wf_position (new_position side_ price_ w).
Proof.
  intro H. unfold wf_position; simpl. repeat split; auto; reflexivity.
Qed.

(** C6. Close P&L: closing an open position books
    (exit - entry) * shares for "YES" and (entry - exit) * shares for "NO"
    and credits size + pnl to the balance; for a position that satisfies
    the invariant of the data model, a "YES" closed above its entry price
    and a "NO" closed below it have a positive pnl. *)
Theorem close_trade_pnl (pos : position) (exit_price_ : Q) (reason_ : string)
  (w : world) :
  In pos (positions w) ->
  wf_position pos ->
  exists record w',
    close_trade pos exit_price_ reason_ w = (Ret record, w')
    /\ closed record = pos
    /\ exit_price record = exit_price_
    /\ (side pos = "YES"%string ->
        pnl record = (exit_price_ - entry_price pos) * shares pos)
    /\ (side pos = "NO"%string ->
        pnl record = (entry_price pos - exit_price_) * shares pos)
    /\ balance w' = balance w + (size pos + pnl record)
    /\ trades w' = trades w ++ [record]
    /\ (side pos = "YES"%string -> entry_price pos < exit_price_ ->
        0 < pnl record)
    /\ (side pos = "NO"%string -> exit_price_ < entry_price pos ->
        0 < pnl record).
Proof.
  intros I W. pose proof (wf_position_shares pos W) as S.
  destruct (list_remove_In pos _ I) as [ps' R].
  rewrite close_trade_eq, R.
  eexists; eexists; split; [reflexivity |]. simpl.
  repeat split; auto using realized_yes, realized_no.
  - intros Y L. rewrite (realized_yes _ _ Y).
    apply Qmult_lt_0_compat; [| exact S].
    exact (proj1 (Qlt_minus_iff _ _) L).
  - intros N L. rewrite (realized_no _ _ N).
    apply Qmult_lt_0_compat; [| exact S].
    exact (proj1 (Qlt_minus_iff _ _) L).
Qed.

Lemma yes_position_wf : wf_position yes_position.
Proof. vm_compute. repeat split; reflexivity. Qed.

(** The take-profit scenario of the specification: the position entered at
    0.851 is closed at 0.96 with a pnl of 545/851 and the balance is
    100 + 545/851. *)
Lemma close_trade_pnl_witness :
  exists record w',
    close_trade yes_position 0.96 "take-profit" one_open = (Ret record, w')
    /\ pnl record == 545 # 851
    /\ 0 < pnl record
    /\ balance w' == 100 + (545 # 851).
Proof.
  destruct (close_trade_pnl yes_position 0.96 "take-profit" one_open
              yes_position_open yes_position_wf)
    as (record & w' & E & _ & _ & Y & _ & B & _ & P & _).
  exists record, w'. split; [exact E |].
  specialize (Y eq_refl). split; [| split].
  - rewrite Y. vm_compute. reflexivity.
  - apply P; [reflexivity | vm_compute; reflexivity].
  - rewrite B, Y. vm_compute. reflexivity.
Defined.

(** ** Opening *)

(** At the cap, with cash in hand, [enter_trade] does not reject: the
    rejection condition of the specification holds in [two_open] and the
    call returns a position. *)
Lemma enter_trade_open_at_cap :
  ~ (fst (enter_trade "YES" 0.85 30 two_open) = Ret None
     <-> spec_open_rejected two_open).
Proof.
  intros [_ H].
  assert (spec_open_rejected two_open) as R by (right; vm_compute; reflexivity).
  specialize (H R). vm_compute in H. discriminate.
Qed.

(** C5 (amended). Contract of [enter_trade] at a non-zero price: it returns
    [None] exactly when the balance is below [POSITION_SIZE], whatever the
    number of open positions, and then changes nothing; otherwise it debits
    [POSITION_SIZE] from the balance, appends exactly one new position,
    whose share count is [POSITION_SIZE / price], so that one more position
    is open, and returns that position. *)
Theorem enter_trade_contract (side_ : string) (price_ secs : Q) (w : world) :
  ~ price_ == 0 ->
  let r := enter_trade side_ price_ secs w in
  (fst r = Ret None <-> balance w < POSITION_SIZE)
  /\ (fst r = Ret None -> snd r = w)
  /\ (fst r <> Ret None ->
      exists pos,
        fst r = Ret (Some pos)
        /\ balance (snd r) = balance w - POSITION_SIZE
        /\ positions (snd r) = positions w ++ [pos]
        /\ List.length (positions (snd r)) = S (List.length (positions w))
        /\ trades (snd r) = trades w
        /\ side pos = side_
        /\ entry_price pos = price_
        /\ size pos = POSITION_SIZE
        /\ shares pos = POSITION_SIZE / price_
        /\ pos_market_id pos = current_market_id w).
Proof.
  intros NZ. cbv zeta.
  assert (Qeq_bool price_ 0 = false) as Z.
  { apply not_true_iff_false. intro E. apply NZ. now apply Qeq_bool_eq. }
  destruct (Qltb (balance w) POSITION_SIZE) eqn:B.
  - rewrite enter_trade_rejected by assumption. simpl.
    apply Qltb_lt in B. repeat split; auto. intro C. now contradiction C.
  - rewrite enter_trade_accepted by assumption. simpl.
    assert (~ balance w < POSITION_SIZE) as NB.
    { intro L. apply Qltb_lt in L. congruence. }
    repeat split; try discriminate; try contradiction.
    intros _. eexists. repeat split.
    rewrite length_app. simpl. lia.
Qed.

(** The contract at the cap: in [two_open] the balance is 90 and the entry
    is made, leaving three positions. *)
Lemma enter_trade_contract_witness :
  exists pos,
    fst (enter_trade "NO" 0.85 30 two_open) = Ret (Some pos)
    /\ shares pos = POSITION_SIZE / 0.85
    /\ List.length (positions (snd (enter_trade "NO" 0.85 30 two_open)))
       = 3%nat.
Proof.
  assert (~ 0.85 == 0) as NZ by (intro H; vm_compute in H; discriminate).
  destruct (enter_trade_contract "NO" 0.85 30 two_open NZ) as (_ & _ & H).
  destruct H as (pos & E & _ & _ & L & _ & _ & _ & _ & S & _).
  - vm_compute. discriminate.
  - exists pos. split; [exact E |]. split; [exact S |].
    rewrite L. vm_compute. reflexivity.
Defined.

(** ** Rollover *)

(** C8. Rollover: a message whose market identifier differs from the
    tracked one replaces the tracked identifier and sets the deadline from
    the clock reading alone, whatever the previous deadline was; the time
    that remains, read less than a second later, is positive and at most
    300 seconds; the positions that were open are kept as they were, with
    their market identifier, and the trade history is kept; when the
    message carries no quote, balance, open positions and trade history
    are unchanged. *)
Theorem rollover_effect (data : message) (m : market_id) (w : world) :
  msg_market data = Some m ->
  market_id_eqb m (current_market_id w) = false ->
  let now := clock w (reads w) in
  let w' := snd (on_message data w) in
  current_market_id w' = m
  /\ market_end_time w' = Some (get_market_end_time_at now)
  /\ ((now <= clock w' (reads w') < now + timedelta 1)%Z ->
      exists secs, fst (seconds_left w') = Ret secs
                   /\ 0 < secs /\ secs <= 300)
  /\ (exists added, positions w' = positions w ++ added)
  /\ trades w' = trades w
  /\ (msg_bids data = None \/ msg_asks data = None ->
      fst (on_message data w) = Ret tt
      /\ balance w' = balance w
      /\ positions w' = positions w
      /\ trades w' = trades w).
Proof.
  intros Hm Hd. cbv zeta.
  pose proof (on_message_grows data w) as (a & P & _ & _ & T & C & E & K & _).
  rewrite (track_market_rollover _ _ _ Hm Hd) in P, T, C, E, K.
  simpl in P, T, C, E, K.
  split; [exact C |]. split; [exact E |]. split; [| split; [eauto | split; [exact T |]]].
  - intro H. rewrite (seconds_left_set _ _ E). simpl.
    eexists; split; [reflexivity |].
    rewrite K in *. now apply remaining_after_rollover.
  - intro Q. rewrite on_message_eq, (track_market_rollover _ _ _ Hm Hd).
    unfold handle_quote.
    destruct Q as [-> | ->]; [| destruct (msg_bids data)]; simpl; auto.
Qed.

(** A rollover notice reaching [one_open]: the identifier is replaced, the
    deadline is 00:05:00.003, the position opened in the previous window
    keeps its identifier. *)
Lemma rollover_effect_witness :
  let w' := snd (on_message (notice "btc-updown-5m-next") one_open) in
  current_market_id w' = Some "btc-updown-5m-next"%string
  /\ market_end_time w' = Some 300003000%Z
  /\ (exists secs, fst (seconds_left w') = Ret secs /\ 0 < secs /\ secs <= 300)
  /\ positions w' = positions one_open
  /\ map pos_market_id (positions w') = [Some "btc-updown-5m"%string].
Proof.
  destruct (rollover_effect (notice "btc-updown-5m-next")
              (Some "btc-updown-5m-next"%string) one_open eq_refl eq_refl)
    as (C & E & S & _ & _ & F).
  destruct (F (or_introl eq_refl)) as (_ & _ & P & _).
  cbv zeta. split; [exact C |]. split; [rewrite E; vm_compute; reflexivity |].
  split; [apply S; vm_compute; split; [discriminate | reflexivity] |].
  split; [exact P |]. rewrite P. vm_compute. reflexivity.
Defined.

(** ** Reset *)

(** C9. Reset: the balance is the configured initial value whatever
    positions were open, no position is open, the trade history is empty,
    and a second reset changes nothing. *)
Theorem reset_idempotent (w : world) :
  let w1 := snd (reset w) in
  fst (reset w) = Ret tt
  /\ balance w1 = INITIAL_BALANCE
  /\ positions w1 = []
  /\ trades w1 = []
  /\ reset w1 = (Ret tt, w1).
Proof. cbv zeta. repeat split. Qed.

(** ** Before the first rollover notice *)

Lemma on_message_no_deadline data w :
  market_end_time w = None ->
  msg_market data = None \/ msg_market data = Some (current_market_id w) ->
  on_message data w = (Ret tt, w).
Proof.
  intros E Hm. rewrite on_message_eq, (track_market_same _ _ Hm). simpl.
  unfold handle_quote.
  destruct (msg_bids data) as [bids |]; [| reflexivity].
  destruct (msg_asks data) as [asks |]; [| reflexivity].
  unfold bind at 1. rewrite (seconds_left_unset _ E).
  unfold bind, gets, ret. simpl. apply for_each_pass.
Qed.

Lemma run_messages_no_deadline msgs : forall w,
  market_end_time w = None ->
  Forall (fun d => msg_market d = None) msgs ->
  run_messages msgs w = (Ret tt, w).
Proof.
  induction msgs as [| d msgs IH]; intros w E F; [reflexivity |].
  inversion F as [| ? ? Hd Hr]; subst. simpl. unfold bind.
  rewrite (on_message_no_deadline d w E (or_introl Hd)).
  now apply IH.
Qed.

(** C10. Before the first rollover notice: while no deadline is set,
    [seconds_left] reports 300, which exceeds the 60-second entry window;
    a quote that carries no market identifier then opens no position and
    leaves the world as it is, and so does any sequence of such quotes. *)
Theorem no_entry_before_first_notice (w : world) (msgs : list message) :
  market_end_time w = None ->
  Forall (fun d => msg_market d = None) msgs ->
  seconds_left w = (Ret 300, w)
  /\ MIN_SECONDS_TO_RESOLUTION < 300
  /\ (forall d, In d msgs -> on_message d w = (Ret tt, w))
  /\ run_messages msgs w = (Ret tt, w).
Proof.
  intros E F. split; [now apply seconds_left_unset |].
  split; [reflexivity |]. split.
  - intros d I. rewrite Forall_forall in F.
    exact (on_message_no_deadline d w E (or_introl (F d I))).
  - now apply run_messages_no_deadline.
Qed.

(** Two quotes at the target price reaching the initial state: nothing is
    opened and the balance is still 100. *)
Lemma no_entry_before_first_notice_witness :
  let msgs := [quote 0.849 0.851; quote 0.85 0.85] in
  let w' := snd (run_messages msgs (initial_world closing_clock)) in
  positions w' = [] /\ balance w' = INITIAL_BALANCE /\ reads w' = 0%nat.
Proof.
  destruct (no_entry_before_first_notice (initial_world closing_clock)
              [quote 0.849 0.851; quote 0.85 0.85] eq_refl) as (_ & _ & _ & R).
  - repeat constructor.
  - cbv zeta. rewrite R. repeat split.
Defined.

(** ** The feed only opens positions that satisfy the invariant *)

Lemma within_tolerance_positive (p : Q) :
  Qle_bool (Qabs (p - ENTRY_PRICE)) ENTRY_TOLERANCE = true -> 0 < p.
Proof.
  intro H. apply Qle_bool_iff in H. apply Qabs_Qle_condition in H as [L _].
  unfold ENTRY_PRICE, ENTRY_TOLERANCE in L. lra.
Qed.

Lemma keeps_wf_ret {A} (a : A) : keeps_wf (ret a).
Proof. intros w H. exact H. Qed.

Lemma keeps_wf_gets {A} (f : world -> A) : keeps_wf (gets f).
Proof. intros w H. exact H. Qed.

Lemma keeps_wf_bind {A B} (c : M A) (k : A -> M B) :
  keeps_wf c -> (forall a, keeps_wf (k a)) -> keeps_wf (bind c k).
Proof.
  intros Hc Hk w H. unfold bind. specialize (Hc w H).
  destruct (c w) as [[a | e] w1]; simpl in Hc; [now apply Hk | exact Hc].
Qed.

Lemma keeps_wf_seconds_left : keeps_wf seconds_left.
Proof.
  intros w H. unfold seconds_left, bind, gets.
  destruct (market_end_time w); exact H.
Qed.

Lemma keeps_wf_enter_trade side_ price_ secs :
  0 < price_ -> keeps_wf (enter_trade side_ price_ secs).
Proof.
  intros P w H.
  destruct (Qltb (balance w) POSITION_SIZE) eqn:B.
  - now rewrite enter_trade_rejected.
  - destruct (Qeq_bool price_ 0) eqn:Z.
    + now rewrite enter_trade_zero.
    + rewrite enter_trade_accepted by assumption.
      unfold wf_ledger; simpl. apply Forall_app. split; [exact H |].
      constructor; [now apply new_position_wf | constructor].
Qed.

Lemma keeps_wf_try_entry side_ book secs : keeps_wf (try_entry side_ book secs).
Proof.
  unfold try_entry. destruct book as [| best book]; [apply keeps_wf_ret |].
  destruct (Qle_bool _ _) eqn:T; [| apply keeps_wf_ret].
  apply keeps_wf_bind; [| intro; apply keeps_wf_ret].
  apply keeps_wf_enter_trade. now apply within_tolerance_positive.
Qed.

Lemma keeps_wf_on_message data : keeps_wf (on_message data).
Proof.
  intros w H. rewrite on_message_eq.
  assert (wf_ledger (snd (track_market data w))) as H1.
  { destruct (track_market_ledger data w) as (_ & P & _).
    unfold wf_ledger. now rewrite P. }
  revert H1. generalize (snd (track_market data w)). clear w H.
  change (keeps_wf (handle_quote data)). unfold handle_quote.
  destruct (msg_bids data) as [bids |]; [| apply keeps_wf_ret].
  destruct (msg_asks data) as [asks |]; [| apply keeps_wf_ret].
  apply keeps_wf_bind; [apply keeps_wf_seconds_left | intro secs].
  apply keeps_wf_bind; [apply keeps_wf_gets | intro ps].
  apply keeps_wf_bind.
  - destruct (_ && _); [| apply keeps_wf_ret].
    apply keeps_wf_bind; [apply keeps_wf_try_entry | intro; apply keeps_wf_try_entry].
  - intros _. apply keeps_wf_bind; [apply keeps_wf_gets |].
    intros l w H. now rewrite for_each_pass.
Qed.

(** Whatever the feed sends, every open position has a positive entry
    price, a positive stake and [size / entry_price] shares. *)
Lemma run_messages_wf msgs : forall clk,
  wf_ledger (snd (run_messages msgs (initial_world clk))).
Proof.
  intro clk. assert (wf_ledger (initial_world clk)) as H by constructor.
  revert H. generalize (initial_world clk).
  induction msgs as [| d msgs IH]; intros w H; [exact H |].
  simpl. unfold bind. pose proof (keeps_wf_on_message d w H) as H1.
  destruct (on_message d w) as [[[] | e] w1]; simpl in H1; [now apply IH | exact H1].
Qed.

(** ** Scenarios of the specification *)

(** Entry: balance 100, ask 0.851 thirty seconds before the deadline; a
    "YES" position of 5/0.851 shares is opened and the balance is 95. *)
Example entry_scenario :
  map side (positions one_open) = ["YES"%string]
  /\ map shares (positions one_open) = [5000 # 851]
  /\ balance one_open == 95.
Proof. repeat split; vm_compute; reflexivity. Qed.

(** Rejection: with two positions open, a quote at the target price opens
    nothing and the balance stays at 90. *)
Example rejection_scenario :
  let w' := snd (on_message (quote 0.85 0.85) two_open) in
  positions w' = positions two_open /\ balance w' == 90.
Proof. cbv zeta. split; vm_compute; reflexivity. Qed.

(** ** Access to the reset command *)

Lemma restricted_allowed allowed user func :
  In user allowed -> restricted allowed user func = func.
Proof.
  intro H. unfold restricted.
  assert (existsb (Z.eqb user) allowed = true) as ->; [| reflexivity].
  apply existsb_exists. exists user. split; [exact H | apply Z.eqb_refl].
Qed.

Lemma restricted_denied allowed user func w :
  ~ In user allowed -> restricted allowed user func w = (Ret tt, w).
Proof.
  intro H. unfold restricted.
  destruct (existsb (Z.eqb user) allowed) eqn:E; [| reflexivity].
  apply existsb_exists in E as (x & I & X). apply Z.eqb_eq in X. now subst.
Qed.

(** * Further properties of the module *)

(** ** Seconds remaining *)

Lemma max0_nonneg (x : Q) : 0 <= max0 x.
Proof.
  unfold max0. destruct (Qle_bool x 0) eqn:E; [apply Qle_refl |].
  apply Qlt_le_weak, Qnot_le_lt. intro H.
  apply Qle_bool_iff in H. congruence.
Qed.

Lemma max0_zero_iff (x : Q) : max0 x == 0 <-> x <= 0.
Proof.
  unfold max0. destruct (Qle_bool x 0) eqn:E.
  - apply Qle_bool_iff in E. split; [intros _; exact E | reflexivity].
  - assert (~ x <= 0) as N by (rewrite <- Qle_bool_iff; congruence).
    split; [intro H; rewrite H in N; exfalso; apply N, Qle_refl | contradiction].
Qed.

Lemma total_seconds_nonpos (d : Z) : total_seconds d <= 0 <-> (d <= 0)%Z.
Proof. unfold total_seconds, Qle; simpl. lia. Qed.

Lemma total_seconds_le (d1 d2 : Z) :
  (d1 <= d2)%Z -> total_seconds d1 <= total_seconds d2.
Proof. unfold total_seconds, Qle; simpl. lia. Qed.

Lemma max0_le (x y : Q) : x <= y -> max0 x <= max0 y.
Proof.
  intro H. unfold max0.
  destruct (Qle_bool x 0) eqn:X; destruct (Qle_bool y 0) eqn:Y;
    try apply Qle_refl; try exact H.
  - apply Qlt_le_weak, Qnot_le_lt. rewrite <- Qle_bool_iff. congruence.
  - apply Qle_bool_iff in Y. apply (Qle_trans _ y); assumption.
Qed.

(** X1. [seconds_left] never raises and never returns a negative number:
    it returns 300 while no deadline is set, 0 exactly when the clock has
    reached the deadline, and the time to the deadline otherwise. *)
Theorem seconds_left_range (w : world) :
  exists secs,
    fst (seconds_left w) = Ret secs
    /\ 0 <= secs
    /\ (market_end_time w = None -> secs = 300)
    /\ (forall e, market_end_time w = Some e ->
          (secs == 0 <-> (e <= clock w (reads w))%Z)
          /\ ((clock w (reads w) < e)%Z ->
              secs = total_seconds (e - clock w (reads w)))).
Proof.
  destruct (market_end_time w) as [e |] eqn:E.
  - rewrite (seconds_left_set _ _ E). eexists; split; [reflexivity |].
    split; [apply max0_nonneg |]. split; [discriminate |].
    intros e' [= <-]. split.
    + rewrite max0_zero_iff, total_seconds_nonpos. lia.
    + intro L. unfold max0.
      destruct (Qle_bool _ 0) eqn:B; [| reflexivity].
      apply Qle_bool_iff in B.
      apply (proj1 (total_seconds_nonpos _)) in B. lia.
  - rewrite (seconds_left_unset _ E). eexists; split; [reflexivity |].
    split; [discriminate |]. split; [reflexivity | discriminate].
Qed.

(** X2. For one deadline, a later reading of the clock never gives more
    seconds left than an earlier one. *)
Theorem seconds_left_antitone (w1 w2 : world) (e : datetime) :
  market_end_time w1 = Some e ->
  market_end_time w2 = Some e ->
  (clock w1 (reads w1) <= clock w2 (reads w2))%Z ->
  exists s1 s2,
    fst (seconds_left w1) = Ret s1 /\ fst (seconds_left w2) = Ret s2
    /\ s2 <= s1.
Proof.
  intros E1 E2 L.
  rewrite (seconds_left_set _ _ E1), (seconds_left_set _ _ E2).
  eexists; eexists; repeat split.
  apply max0_le, total_seconds_le. lia.
Qed.

Lemma seconds_left_antitone_witness :
  exists s1 s2,
    fst (seconds_left (waiting_at 270000000%Z)) = Ret s1
    /\ fst (seconds_left (waiting_at 299000000%Z)) = Ret s2
    /\ s2 <= s1.
Proof.
  apply (seconds_left_antitone (waiting_at 270000000%Z) (waiting_at 299000000%Z)
           300000000%Z); [reflexivity | reflexivity |].
  vm_compute. discriminate.
Defined.

(** ** Window deadline, for every reading *)

(** X4. Whatever the reading of the clock, the deadline of
    [get_market_end_time] has a minute that is a multiple of five and a
    zero second, keeps the microsecond of the reading, and lies between
    one second and 300 seconds after the reading. *)
Theorem deadline_fields (now : datetime) :
  let e := get_market_end_time_at now in
  (minute e mod 5 = 0
   /\ second e = 0
   /\ microsecond e = microsecond now
   /\ now + timedelta 1 <= e <= now + timedelta 300)%Z.
Proof.
  cbv zeta. split; [apply deadline_minute |]. split; [apply deadline_second |].
  split; [apply deadline_microsecond | apply deadline_ahead].
Qed.

(** X5. The deadline is a full 300 seconds away exactly when the reading
    is in the first second of a five-minute epoch (minute a multiple of
    five, second zero): on a boundary the next boundary is returned, never
    the boundary itself. *)
Theorem deadline_full_window_iff (now : datetime) :
  (get_market_end_time_at now = now + timedelta 300
   <-> (minute now mod 5 = 0 /\ second now = 0))%Z.
Proof.
  rewrite get_market_end_time_at_eq, <- epoch_offset.
  unfold timedelta.
  assert (0 <= second now < 60 /\ 0 <= minute now < 60)%Z as [Hs Hm].
  { unfold second, minute. split; apply Z.mod_pos_bound; lia. }
  generalize dependent (second now). generalize dependent (minute now).
  intros b Hb a Ha.
  assert ((a + b * 60) mod 300 = a + 60 * (b mod 5))%Z as ->.
  { Z.div_mod_to_equations. lia. }
  split; intro H; Z.div_mod_to_equations; lia.
Qed.

(** X6. Two readings in the same five-minute epoch get the same deadline,
    up to their own microseconds. *)
Theorem deadline_same_epoch (now1 now2 : datetime) :
  (now1 / 300000000 = now2 / 300000000 ->
   get_market_end_time_at now1 - microsecond now1
   = get_market_end_time_at now2 - microsecond now2)%Z.
Proof.
  intro H. rewrite !get_market_end_time_at_eq. unfold timedelta, microsecond.
  replace 300000000%Z with (1000000 * 300)%Z in H by reflexivity.
  rewrite <- !Z.div_div in H by lia.
  revert H. Z.div_mod_to_equations. lia.
Qed.

Lemma deadline_same_epoch_witness :
  (get_market_end_time_at 43400500000 - 500000
   = get_market_end_time_at 43499999999 - 999999)%Z.
Proof.
  apply (deadline_same_epoch 43400500000%Z 43499999999%Z). reflexivity.
Defined.

(** ** The feed callback never raises *)

Lemma within_tolerance_nonzero (p : Q) :
  within_tolerance p = true -> Qeq_bool p 0 = false.
Proof.
  intro H. apply within_tolerance_positive in H.
  apply not_true_iff_false. intro E. apply Qeq_bool_eq in E.
  rewrite E in H. discriminate.
Qed.

Lemma enter_trade_in_tolerance_returns side_ price_ secs w :
  within_tolerance price_ = true ->
  exists r, fst (enter_trade side_ price_ secs w) = Ret r.
Proof.
  intro T. destruct (Qltb (balance w) POSITION_SIZE) eqn:B.
  - rewrite enter_trade_rejected by assumption. simpl. eauto.
  - rewrite enter_trade_accepted by auto using within_tolerance_nonzero.
    simpl. eauto.
Qed.

Lemma try_entry_returns side_ book secs w :
  fst (try_entry side_ book secs w) = Ret tt.
Proof.
  unfold try_entry. destruct book as [| best book]; [reflexivity |].
  fold (within_tolerance (price best)).
  destruct (within_tolerance (price best)) eqn:T; [| reflexivity].
  unfold bind.
  destruct (enter_trade_in_tolerance_returns side_ (price best) secs w T)
    as [r R].
  destruct (enter_trade side_ (price best) secs w) as [[a | e] w1];
    [reflexivity | discriminate].
Qed.

Lemma seconds_left_returns w :
  exists secs w1, seconds_left w = (Ret secs, w1).
Proof.
  destruct (market_end_time w) as [e |] eqn:E.
  - rewrite (seconds_left_set _ _ E). eauto.
  - rewrite (seconds_left_unset _ E). eauto.
Qed.

Lemma handle_quote_returns data w : fst (handle_quote data w) = Ret tt.
Proof.
  unfold handle_quote.
  destruct (msg_bids data) as [bids |]; [| reflexivity].
  destruct (msg_asks data) as [asks |]; [| reflexivity].
  unfold bind at 1. destruct (seconds_left_returns w) as (secs & w1 & ->).
  unfold bind at 1, gets at 1. unfold bind at 1.
  destruct (_ && _).
  - unfold bind at 1.
    pose proof (try_entry_returns "YES" asks secs w1) as Y.
    destruct (try_entry "YES" asks secs w1) as [[[] | e] w2]; [| discriminate].
    pose proof (try_entry_returns "NO" bids secs w2) as N.
    destruct (try_entry "NO" bids secs w2) as [[[] | e] w3]; [| discriminate].
    unfold bind, gets. now rewrite for_each_pass.
  - unfold ret at 1. unfold bind, gets. now rewrite for_each_pass.
Qed.


Lemma on_message_fst data w : fst (on_message data w) = Ret tt.
Proof. rewrite on_message_eq. apply handle_quote_returns. Qed.

(** X8. [enter_trade] raises in one case only: a zero price with a balance
    of at least [POSITION_SIZE]; the exception is [ZeroDivisionError] and
    the world is left as it was. *)
Theorem enter_trade_raises_iff (side_ : string) (price_ secs : Q) (w : world)
  (e : exn) :
  (fst (enter_trade side_ price_ secs w) = Raise e
   <-> e = ZeroDivisionError /\ price_ == 0 /\ ~ balance w < POSITION_SIZE)
  /\ (fst (enter_trade side_ price_ secs w) = Raise e ->
      snd (enter_trade side_ price_ secs w) = w).
Proof.
  destruct (Qltb (balance w) POSITION_SIZE) eqn:B.
  - rewrite enter_trade_rejected by assumption. simpl.
    apply Qltb_lt in B. split; [split |]; try discriminate.
    intros (_ & _ & N). contradiction.
  - assert (~ balance w < POSITION_SIZE) as NB
      by (rewrite <- Qltb_lt; congruence).
    destruct (Qeq_bool price_ 0) eqn:Z.
    + rewrite enter_trade_zero by assumption. simpl.
      apply Qeq_bool_eq in Z. split; [split |]; auto.
      * intros [= <-]. auto.
      * intros (-> & _). reflexivity.
    + rewrite enter_trade_accepted by assumption. simpl.
      apply Qeq_bool_neq in Z. split; [split |]; try discriminate.
      intros (_ & E & _). contradiction.
Qed.

(** ** Invariants of the feed *)

Lemma preserves_ret {A} P (a : A) : preserves P (ret a).
Proof. intros w H. exact H. Qed.

Lemma preserves_gets {A} P (f : world -> A) : preserves P (gets f).
Proof. intros w H. exact H. Qed.

Lemma preserves_bind {A B} P (c : M A) (k : A -> M B) :
  preserves P c -> (forall a, preserves P (k a)) -> preserves P (bind c k).
Proof.
  intros Hc Hk w H. unfold bind. specialize (Hc w H).
  destruct (c w) as [[a | e] w1]; simpl in Hc; [now apply Hk | exact Hc].
Qed.

(** A property kept by a reading of the clock, by the rollover block and
    by an entry within tolerance is kept by the callback. *)
Lemma on_message_preserves (P : world -> Prop) :
  (forall w, P w -> P (tick w)) ->
  (forall data, preserves P (track_market data)) ->
  (forall side_ price_ secs,
      side_ = "YES"%string \/ side_ = "NO"%string ->
      within_tolerance price_ = true ->
      preserves P (enter_trade side_ price_ secs)) ->
  forall data, preserves P (on_message data).
Proof.
  intros Htick Htrack Henter data.
  assert (forall side_ book secs,
             side_ = "YES"%string \/ side_ = "NO"%string ->
             preserves P (try_entry side_ book secs)) as Htry.
  { intros s book secs Hs. unfold try_entry.
    destruct book as [| best book]; [apply preserves_ret |].
    fold (within_tolerance (price best)).
    destruct (within_tolerance (price best)) eqn:T; [| apply preserves_ret].
    apply preserves_bind; [now apply Henter | intro; apply preserves_ret]. }
  unfold on_message. apply preserves_bind; [apply Htrack | intros _].
  unfold handle_quote.
  destruct (msg_bids data) as [bids |]; [| apply preserves_ret].
  destruct (msg_asks data) as [asks |]; [| apply preserves_ret].
  apply preserves_bind.
  { intros w H. unfold seconds_left, bind, gets.
    destruct (market_end_time w); simpl; auto. }
  intro secs. apply preserves_bind; [apply preserves_gets | intro ps].
  apply preserves_bind.
  - destruct (_ && _); [| apply preserves_ret].
    apply preserves_bind; [apply Htry; auto | intro; apply Htry; auto].
  - intros _. apply preserves_bind; [apply preserves_gets |].
    intros l w H. now rewrite for_each_pass.
Qed.

Lemma run_messages_preserves (P : world -> Prop) :
  (forall data, preserves P (on_message data)) ->
  forall msgs, preserves P (run_messages msgs).
Proof.
  intros H msgs. induction msgs as [| d msgs IH]; [apply preserves_ret |].
  simpl. apply preserves_bind; [apply H | intros _; exact IH].
Qed.

Lemma new_position_feed side_ price_ w :
  side_ = "YES"%string \/ side_ = "NO"%string ->
  within_tolerance price_ = true ->
  feed_position (new_position side_ price_ w).
Proof. intros S T. unfold feed_position; simpl. repeat split; auto. Qed.

Lemma feed_ledger_on_message data : preserves feed_ledger (on_message data).
Proof.
  apply on_message_preserves.
  - intros w H. exact H.
  - intros d w (T & F & B).
    destruct (track_market_ledger d w) as (Eb & Ep & Et).
    unfold feed_ledger. now rewrite Eb, Ep, Et.
  - intros s p secs Hs Ht w (T & F & B).
    destruct (Qltb (balance w) POSITION_SIZE) eqn:L.
    + rewrite enter_trade_rejected by assumption. now split.
    + rewrite enter_trade_accepted by auto using within_tolerance_nonzero.
      unfold feed_ledger; simpl. split; [exact T |]. split.
      * apply Forall_app. split; [exact F |].
        constructor; [now apply new_position_feed | constructor].
      * rewrite B, length_app; simpl.
        rewrite Nat2Z.inj_add, inject_Z_plus. simpl. ring.
Qed.

Lemma feed_ledger_reached clk msgs :
  feed_ledger (snd (run_messages msgs (initial_world clk))).
Proof.
  apply (run_messages_preserves feed_ledger feed_ledger_on_message).
  unfold feed_ledger; simpl.
  split; [reflexivity | split; [constructor | reflexivity]].
Qed.

Lemma at_most_one_over_reached clk msgs :
  (List.length (positions (snd (run_messages msgs (initial_world clk))))
   <= S MAX_CONCURRENT_POSITIONS)%nat.
Proof.
  apply (run_messages_preserves
           (fun w => (List.length (positions w)
                      <= S MAX_CONCURRENT_POSITIONS)%nat)).
  - intros d w H. now apply on_message_at_most_one_over.
  - simpl. lia.
Qed.

(** X9. The feed never closes a position: in every state that the feed
    callback can reach from the initial state the trade history is empty
    and the balance is the initial balance less [POSITION_SIZE] per open
    position. *)
Theorem feed_never_closes (clk : nat -> datetime) (msgs : list message) :
  let w := snd (run_messages msgs (initial_world clk)) in
  trades w = []
  /\ balance w
     == INITIAL_BALANCE
        - POSITION_SIZE * inject_Z (Z.of_nat (List.length (positions w))).
Proof.
  cbv zeta. destruct (feed_ledger_reached clk msgs) as (T & _ & B). auto.
Qed.

(** X10. Whatever the feed sends, at most three positions are ever open,
    one more than [MAX_CONCURRENT_POSITIONS], and the balance never falls
    below 85. *)
Theorem feed_exposure_bound (clk : nat -> datetime) (msgs : list message) :
  let w := snd (run_messages msgs (initial_world clk)) in
  (List.length (positions w) <= 3)%nat /\ 85 <= balance w.
Proof.
  cbv zeta. pose proof (at_most_one_over_reached clk msgs) as L.
  destruct (feed_ledger_reached clk msgs) as (_ & _ & B).
  split; [exact L |]. rewrite B.
  set (n := List.length _) in *. unfold MAX_CONCURRENT_POSITIONS in L.
  assert (inject_Z (Z.of_nat n) <= 3) as H.
  { change 3 with (inject_Z 3). rewrite <- Zle_Qle. lia. }
  unfold INITIAL_BALANCE, POSITION_SIZE. lra.
Qed.

(** X11. Every position that the feed opens is a "YES" or a "NO" position
    entered within tolerance of the target price, of size
    [POSITION_SIZE], with [size / entry_price] shares, the configured
    stop-loss and take-profit, and a last-observed price that is still its
    entry price. *)
Theorem feed_positions_shape (clk : nat -> datetime) (msgs : list message)
  (p : position) :
  In p (positions (snd (run_messages msgs (initial_world clk)))) ->
  (side p = "YES"%string \/ side p = "NO"%string)
  /\ Qabs (entry_price p - ENTRY_PRICE) <= ENTRY_TOLERANCE
  /\ size p = POSITION_SIZE
  /\ shares p = POSITION_SIZE / entry_price p
  /\ stop_loss p = STOP_LOSS
  /\ take_profit p = TAKE_PROFIT
  /\ current_price p = entry_price p.
Proof.
  intro I. destruct (feed_ledger_reached clk msgs) as (_ & F & _).
  rewrite Forall_forall in F.
  destruct (F p I) as (S & T & R). split; [exact S |]. split; [| exact R].
  now apply Qle_bool_iff.
Qed.

Lemma feed_positions_shape_witness :
  side yes_position = "YES"%string
  /\ Qabs (entry_price yes_position - ENTRY_PRICE) <= ENTRY_TOLERANCE
  /\ shares yes_position = POSITION_SIZE / entry_price yes_position.
Proof.
  destruct (feed_positions_shape closing_clock [first_message 0.851]
              yes_position) as (_ & T & _ & S & _).
  - vm_compute. left. reflexivity.
  - split; [reflexivity |]. split; [exact T | exact S].
Defined.

(** ** Seconds remaining along the feed *)

Lemma max0_le_bound (x b : Q) : 0 <= b -> x <= b -> max0 x <= b.
Proof. intros B H. unfold max0. destruct (Qle_bool x 0); assumption. Qed.

Lemma deadline_from_past_on_message clk data :
  preserves (fun w => clock w = clk /\ deadline_from_past w) (on_message data).
Proof.
  apply on_message_preserves.
  - intros w [C D]. split; [exact C |]. unfold deadline_from_past in *; simpl.
    destruct (market_end_time w) as [e |]; [| exact I].
    destruct D as (i & L & E). exists i. split; [lia | exact E].
  - intros d w [C D]. unfold track_market, bind, gets.
    destruct (msg_market d) as [m |]; [| now split].
    destruct (market_id_eqb m (current_market_id w)); [now split |].
    simpl. split; [exact C |]. unfold deadline_from_past; simpl.
    exists (reads w). split; [lia | reflexivity].
  - intros s p secs _ T w [C D].
    destruct (Qltb (balance w) POSITION_SIZE) eqn:L.
    + rewrite enter_trade_rejected by assumption. now split.
    + rewrite enter_trade_accepted by auto using within_tolerance_nonzero.
      simpl. split; [exact C |]. unfold deadline_from_past in *; simpl.
      destruct (market_end_time w) as [e |]; [| exact I].
      destruct D as (i & Li & E). exists i. split; [lia | exact E].
Qed.

(** X3. Under a clock that never goes back, in every state that the feed
    callback can reach from the initial state [seconds_left] is between 0
    and 300. *)
Theorem feed_seconds_left_bounded (clk : nat -> datetime)
  (msgs : list message) :
  monotone clk ->
  exists secs,
    fst (seconds_left (snd (run_messages msgs (initial_world clk)))) = Ret secs
    /\ 0 <= secs /\ secs <= 300.
Proof.
  intro Mono.
  assert (clock (snd (run_messages msgs (initial_world clk))) = clk
          /\ deadline_from_past (snd (run_messages msgs (initial_world clk))))
    as [C D].
  { apply (run_messages_preserves _ (deadline_from_past_on_message clk)).
    split; [reflexivity | exact I]. }
  set (w := snd (run_messages msgs (initial_world clk))) in *.
  unfold deadline_from_past in D.
  destruct (market_end_time w) as [e |] eqn:E.
  - rewrite (seconds_left_set _ _ E). eexists; split; [reflexivity |].
    split; [apply max0_nonneg |].
    apply max0_le_bound; [discriminate |].
    destruct D as (i & L & ->). rewrite C.
    pose proof (deadline_ahead (clk i)) as A. unfold timedelta in A.
    assert (clk i <= clk (reads w))%Z as H by (apply Mono; lia).
    unfold total_seconds, Qle; simpl. lia.
  - rewrite (seconds_left_unset _ E). eexists; split; [reflexivity |].
    split; [discriminate | apply Qle_refl].
Qed.

Lemma feed_seconds_left_bounded_witness :
  exists secs,
    fst (seconds_left
           (snd (run_messages [first_message 0.85; quote 0.85 0.85]
                   (initial_world half_second_clock)))) = Ret secs
    /\ 0 <= secs /\ secs <= 300.
Proof.
  apply (feed_seconds_left_bounded half_second_clock).
  intros i j _. apply Z.le_refl.
Defined.

(** ** The entry rule *)

Lemma seconds_left_ledger w secs w1 :
  seconds_left w = (Ret secs, w1) ->
  balance w1 = balance w /\ positions w1 = positions w
  /\ trades w1 = trades w.
Proof.
  destruct (market_end_time w) as [e |] eqn:E.
  - rewrite (seconds_left_set _ _ E). intros [= _ <-]. simpl. auto.
  - rewrite (seconds_left_unset _ E). intros [= _ <-]. auto.
Qed.

(** The quote block when the guard fails. *)
Lemma handle_quote_guard_false data bids asks w secs w1 :
  msg_bids data = Some bids -> msg_asks data = Some asks ->
  seconds_left w = (Ret secs, w1) ->
  Qle_bool secs MIN_SECONDS_TO_RESOLUTION
  && (List.length (positions w1) <? MAX_CONCURRENT_POSITIONS)%nat = false ->
  handle_quote data w = (Ret tt, w1).
Proof.
  intros Hb Ha Hs G. unfold handle_quote. rewrite Hb, Ha.
  unfold bind at 1. rewrite Hs. unfold bind at 1, gets at 1.
  rewrite G. unfold bind, ret, gets. apply for_each_pass.
Qed.


Lemma handle_quote_capped data w :
  (MAX_CONCURRENT_POSITIONS <= List.length (positions w))%nat ->
  let w' := snd (handle_quote data w) in
  balance w' = balance w /\ positions w' = positions w
  /\ trades w' = trades w.
Proof.
  intro H. cbv zeta.
  destruct (msg_bids data) as [bids |] eqn:Hb;
    [| unfold handle_quote; rewrite Hb; simpl; auto].
  destruct (msg_asks data) as [asks |] eqn:Ha;
    [| unfold handle_quote; rewrite Hb, Ha; simpl; auto].
  destruct (seconds_left_returns w) as (secs & w1 & Hs).
  destruct (seconds_left_ledger _ _ _ Hs) as (Eb & Ep & Et).
  rewrite (handle_quote_guard_false data bids asks w secs w1 Hb Ha Hs).
  - simpl. auto.
  - apply andb_false_intro2. apply Nat.ltb_ge. now rewrite Ep.
Qed.

Lemma on_message_capped data w :
  (MAX_CONCURRENT_POSITIONS <= List.length (positions w))%nat ->
  let w' := snd (on_message data w) in
  balance w' = balance w /\ positions w' = positions w
  /\ trades w' = trades w.
Proof.
  intro H. cbv zeta. rewrite on_message_eq.
  destruct (track_market_ledger data w) as (Eb & Ep & Et).
  rewrite <- Ep in H.
  destruct (handle_quote_capped data _ H) as (Fb & Fp & Ft).
  rewrite Fb, Fp, Ft. auto.
Qed.

(** X12. Once [MAX_CONCURRENT_POSITIONS] positions are open the feed no
    longer changes the ledger: whatever messages follow, the balance, the
    open positions and the trade history stay as they are. *)
Theorem capped_feed_is_inert (w : world) (msgs : list message) :
  (MAX_CONCURRENT_POSITIONS <= List.length (positions w))%nat ->
  let w' := snd (run_messages msgs w) in
  balance w' = balance w /\ positions w' = positions w
  /\ trades w' = trades w.
Proof.
  revert w. induction msgs as [| d msgs IH]; intros w H; cbv zeta.
  - simpl. auto.
  - simpl. unfold bind.
    pose proof (on_message_fst d w) as R.
    destruct (on_message_capped d w H) as (Eb & Ep & Et).
    destruct (on_message d w) as [[[] | e] w1]; [| discriminate].
    simpl in Eb, Ep, Et. rewrite <- Ep in H.
    destruct (IH w1 H) as (Fb & Fp & Ft).
    rewrite Fb, Fp, Ft. auto.
Qed.

Lemma capped_feed_is_inert_witness :
  let w' := snd (run_messages [quote 0.85 0.85; first_message 0.85] two_open) in
  balance w' = balance two_open /\ positions w' = positions two_open
  /\ trades w' = trades two_open.
Proof.
  apply (capped_feed_is_inert two_open [quote 0.85 0.85; first_message 0.85]).
  vm_compute. lia.
Defined.


Lemma max0_gt_60 (d : Z) :
  (60000000 < d)%Z ->
  Qle_bool (max0 (total_seconds d)) MIN_SECONDS_TO_RESOLUTION = false.
Proof.
  intro H. apply not_true_iff_false. intro L. apply Qle_bool_iff in L.
  unfold max0 in L. destruct (Qle_bool (total_seconds d) 0) eqn:Z.
  - apply Qle_bool_iff in Z. apply (proj1 (total_seconds_nonpos _)) in Z. lia.
  - unfold total_seconds, MIN_SECONDS_TO_RESOLUTION, Qle in L; simpl in L. lia.
Qed.



(** X14. Outside the entry window: a quote that carries no market
    identifier and arrives more than 60 seconds before the deadline opens
    nothing; balance, open positions and trade history are unchanged. *)
Theorem no_entry_outside_window (data : message) (w : world) (e : datetime) :
  msg_market data = None ->
  market_end_time w = Some e ->
  (60000000 < e - clock w (reads w))%Z ->
  let w' := snd (on_message data w) in
  balance w' = balance w /\ positions w' = positions w
  /\ trades w' = trades w.
Proof.
  intros Hm He Hd. cbv zeta.
  rewrite on_message_eq, (track_market_same data w (or_introl Hm)). simpl.
  destruct (msg_bids data) as [bids |] eqn:Hb;
    [| unfold handle_quote; rewrite Hb; simpl; auto].
  destruct (msg_asks data) as [asks |] eqn:Ha;
    [| unfold handle_quote; rewrite Hb, Ha; simpl; auto].
  rewrite (handle_quote_guard_false data bids asks w _ _ Hb Ha
             (seconds_left_set _ _ He)).
  - simpl. auto.
  - rewrite (max0_gt_60 _ Hd). reflexivity.
Qed.

Lemma no_entry_outside_window_witness :
  let w' := snd (on_message (quote 0.849 0.851) (waiting_at 200000000%Z)) in
  balance w' = INITIAL_BALANCE /\ positions w' = [] /\ trades w' = [].
Proof.
  apply (no_entry_outside_window (quote 0.849 0.851)
           (waiting_at 200000000%Z) 300000000%Z eq_refl eq_refl).
  vm_compute. reflexivity.
Defined.

(** ** Repeated rollover notices *)

Lemma market_id_eqb_eq (a b : market_id) : market_id_eqb a b = true -> a = b.
Proof.
  destruct a as [x |], b as [y |]; simpl; try discriminate; auto.
  intro H. apply String.eqb_eq in H. now subst.
Qed.

(** X26. A rollover notice received twice: the second copy changes
    nothing, in particular the deadline is not computed again. *)
Theorem repeated_notice_is_noop (data : message) (m : market_id) (w : world) :
  msg_market data = Some m ->
  msg_bids data = None \/ msg_asks data = None ->
  let w1 := snd (on_message data w) in
  on_message data w1 = (Ret tt, w1).
Proof.
  intros Hm Hq. cbv zeta.
  assert (forall w0, handle_quote data w0 = (Ret tt, w0)) as HQ.
  { intro w0. unfold handle_quote.
    destruct Hq as [-> | ->]; [| destruct (msg_bids data)]; reflexivity. }
  assert (current_market_id (snd (on_message data w)) = m) as C.
  { rewrite on_message_eq, HQ. simpl.
    destruct (market_id_eqb m (current_market_id w)) eqn:E.
    - rewrite track_market_same by (right; rewrite Hm; f_equal;
                                    now apply market_id_eqb_eq).
      simpl. symmetry. now apply market_id_eqb_eq.
    - now rewrite (track_market_rollover _ _ _ Hm E). }
  rewrite (on_message_eq data (snd (on_message data w))), HQ.
  rewrite track_market_same; [reflexivity |].
  right. now rewrite C.
Qed.

Lemma repeated_notice_is_noop_witness :
  let w1 := snd (on_message (notice "next") one_open) in
  market_end_time (snd (on_message (notice "next") w1)) = market_end_time w1
  /\ reads (snd (on_message (notice "next") w1)) = reads w1.
Proof.
  cbv zeta.
  rewrite (repeated_notice_is_noop (notice "next") (Some "next"%string)
             one_open eq_refl (or_introl eq_refl)).
  split; reflexivity.
Defined.

(** ** Opening and closing together *)

(** X15. Round trip: a position entered at a non-zero price with enough
    balance and closed at once at its entry price books a pnl of zero,
    gives the balance back, and leaves as many positions open as before
    the entry. *)
Theorem open_close_round_trip (side_ : string) (price_ secs : Q)
  (reason_ : string) (w : world) :
  ~ price_ == 0 ->
  ~ balance w < POSITION_SIZE ->
  let w1 := snd (enter_trade side_ price_ secs w) in
  let pos := new_position side_ price_ w in
  fst (enter_trade side_ price_ secs w) = Ret (Some pos)
  /\ exists record w2,
       close_trade pos price_ reason_ w1 = (Ret record, w2)
       /\ pnl record == 0
       /\ balance w2 == balance w
       /\ List.length (positions w2) = List.length (positions w)
       /\ trades w2 = trades w ++ [record].
Proof.
  intros NZ NB. cbv zeta.
  assert (Qltb (balance w) POSITION_SIZE = false) as B
    by (apply not_true_iff_false; now rewrite Qltb_lt).
  assert (Qeq_bool price_ 0 = false) as Z
    by (apply not_true_iff_false; intro E; apply NZ; now apply Qeq_bool_eq).
  rewrite (enter_trade_accepted _ _ _ _ B Z). simpl. split; [reflexivity |].
  set (pos := new_position side_ price_ w).
  assert (In pos (positions (entered side_ price_ w))) as I
    by (simpl; apply in_or_app; right; left; reflexivity).
  destruct (list_remove_In _ _ I) as [ps' R].
  rewrite close_trade_eq, R. eexists; eexists; split; [reflexivity |].
  assert (realized pos price_ == 0) as P0.
  { unfold realized, pos; simpl. destruct (String.eqb side_ "YES"); ring. }
  simpl. split; [exact P0 |]. split; [rewrite P0; unfold pos; simpl; ring |].
  split; [| reflexivity].
  apply list_remove_length in R. simpl in R. rewrite length_app in R.
  simpl in R. lia.
Qed.

Lemma open_close_round_trip_witness :
  exists record w2,
    close_trade (new_position "NO" 0.849 one_open) 0.849 "manual"
      (snd (enter_trade "NO" 0.849 30 one_open)) = (Ret record, w2)
    /\ pnl record == 0
    /\ balance w2 == balance one_open
    /\ List.length (positions w2) = List.length (positions one_open)
    /\ trades w2 = trades one_open ++ [record].
Proof.
  refine (proj2 (open_close_round_trip "NO" 0.849 30 "manual" one_open _ _));
    intro H; vm_compute in H; discriminate.
Defined.

Lemma list_remove_split (p : position) (l l' : list position) :
  list_remove p l = Some l' ->
  exists l1 q l2,
    l = l1 ++ q :: l2 /\ l' = l1 ++ l2
    /\ position_eqb q p = true
    /\ Forall (fun q' => position_eqb q' p = false) l1.
Proof.
  revert l'; induction l as [| q l IH]; simpl; intros l' H; [discriminate |].
  destruct (position_eqb q p) eqn:E.
  - injection H as <-. exists [], q, l. repeat split; auto.
  - destruct (list_remove p l) as [r |]; [| discriminate].
    injection H as <-. destruct (IH r eq_refl) as (l1 & q' & l2 & -> & -> & Q & F).
    exists (q :: l1), q', l2. repeat split; auto.
Qed.

(** X16. A close that returns removes exactly one open position: the
    first one, in insertion order, that is equal to the position given; the
    others stay, in order; one record is appended to the history. *)
Theorem close_removes_first_equal (pos : position) (exit_price_ : Q)
  (reason_ : string) (w : world) (record : trade) :
  fst (close_trade pos exit_price_ reason_ w) = Ret record ->
  let w' := snd (close_trade pos exit_price_ reason_ w) in
  (exists l1 q l2,
      positions w = l1 ++ q :: l2
      /\ positions w' = l1 ++ l2
      /\ position_eqb q pos = true
      /\ Forall (fun q' => position_eqb q' pos = false) l1)
  /\ trades w' = trades w ++ [record]
  /\ closed record = pos /\ reason record = reason_.
Proof.
  cbv zeta. rewrite close_trade_eq.
  destruct (list_remove pos (positions w)) as [ps' |] eqn:R; [| discriminate].
  simpl. intros [= <-]. split; [| auto].
  now apply list_remove_split.
Qed.

Lemma close_removes_first_equal_witness :
  let w' := snd (close_trade yes_position 0.96 "take-profit" one_open) in
  exists l1 q l2,
    positions one_open = l1 ++ q :: l2
    /\ positions w' = l1 ++ l2
    /\ position_eqb q yes_position = true
    /\ Forall (fun q' => position_eqb q' yes_position = false) l1.
Proof.
  refine (proj1 (close_removes_first_equal yes_position 0.96 "take-profit"
                   one_open _ _)).
  vm_compute. reflexivity.
Defined.

Lemma list_remove_occurrences (p : position) (l l' : list position) :
  list_remove p l = Some l' -> occurrences p l = S (occurrences p l').
Proof.
  unfold occurrences.
  revert l'; induction l as [| q l IH]; simpl; intros l' H; [discriminate |].
  destruct (position_eqb q p) eqn:E.
  - now injection H as <-.
  - destruct (list_remove p l) as [r |]; [| discriminate].
    injection H as <-. simpl. rewrite E. now apply IH.
Qed.

Lemma list_remove_none_iff (p : position) (l : list position) :
  list_remove p l = None <-> occurrences p l = 0%nat.
Proof.
  split.
  - unfold occurrences. induction l as [| q l IH]; simpl; [reflexivity |].
    destruct (position_eqb q p); [discriminate |].
    destruct (list_remove p l); [discriminate | auto].
  - intro H. destruct (list_remove p l) as [l' |] eqn:R; [| reflexivity].
    apply list_remove_occurrences in R. lia.
Qed.

(** X17. Closing the same position a second time raises [ValueError]
    exactly when no other open position was equal to it; when an equal one
    was open, the second close settles that one. *)
Theorem second_close_raises_iff (pos : position) (x1 x2 : Q)
  (r1 r2 : string) (w : world) (record : trade) :
  fst (close_trade pos x1 r1 w) = Ret record ->
  let w1 := snd (close_trade pos x1 r1 w) in
  (fst (close_trade pos x2 r2 w1) = Raise ValueError
   <-> occurrences pos (positions w) = 1%nat)
  /\ ((exists record2, fst (close_trade pos x2 r2 w1) = Ret record2)
      <-> (2 <= occurrences pos (positions w))%nat).
Proof.
  cbv zeta. rewrite (close_trade_eq pos x1 r1 w).
  destruct (list_remove pos (positions w)) as [ps' |] eqn:R; [| discriminate].
  simpl. intros _. rewrite close_trade_eq. simpl.
  rewrite (list_remove_occurrences _ _ _ R).
  destruct (list_remove pos ps') as [ps2 |] eqn:R2; simpl.
  - apply list_remove_occurrences in R2. split; split;
      try discriminate; try lia; eauto.
  - apply list_remove_none_iff in R2. split; split;
      try reflexivity; try lia.
    intros [? H]. discriminate.
Qed.

Lemma second_close_raises_iff_witness :
  fst (close_trade yes_position 0.5 "again"
         (snd (close_trade yes_position 0.96 "take-profit" one_open)))
  = Raise ValueError.
Proof.
  refine (proj2 (proj1 (second_close_raises_iff yes_position 0.96 0.5
                          "take-profit" "again" one_open _ _)) _);
    vm_compute; reflexivity.
Defined.



(** ** Reset and the ledger *)



(** ** The status command *)



Lemma wins_le (ts : list trade) : (wins ts <= List.length ts)%nat.
Proof. unfold wins. apply filter_length_le. Qed.

Lemma wins_all (ts : list trade) :
  Forall (fun t => 0 < pnl t) ts -> wins ts = List.length ts.
Proof.
  unfold wins. induction 1 as [| t ts Ht _ IH]; simpl; [reflexivity |].
  apply Qltb_lt in Ht. rewrite Ht. simpl. now rewrite IH.
Qed.

(** X21. The win rate of [/status] is a percentage: 0 when there is no
    trade (nothing is divided), between 0 and 100 otherwise, and 100 when
    every trade has a positive pnl. *)
Theorem status_win_rate_range (w : world) :
  exists r,
    status w = (Ret r, w)
    /\ 0 <= win_rate r /\ win_rate r <= 100
    /\ (trades w = [] -> win_rate r = 0)
    /\ (trades w <> [] -> Forall (fun t => 0 < pnl t) (trades w) ->
        win_rate r == 100).
Proof.
  eexists. split; [reflexivity |]. simpl.
  destruct (trades w) as [| t ts] eqn:E.
  - repeat split; try discriminate. congruence.
  - set (l := t :: ts) in *.
    set (a := inject_Z (Z.of_nat (wins l))).
    set (b := inject_Z (Z.of_nat (List.length l))).
    assert (0 < b) as Hb.
    { unfold b. change 0 with (inject_Z 0). rewrite <- Zlt_Qlt.
      unfold l; simpl. lia. }
    assert (0 <= a) as Ha.
    { unfold a. change 0 with (inject_Z 0). rewrite <- Zle_Qle. lia. }
    assert (a <= b) as Hab.
    { unfold a, b. rewrite <- Zle_Qle. pose proof (wins_le l). lia. }
    assert (0 <= a / b) as H0.
    { apply Qle_shift_div_l; [exact Hb |]. now rewrite Qmult_0_l. }
    assert (a / b <= 1) as H1.
    { apply Qle_shift_div_r; [exact Hb |]. now rewrite Qmult_1_l. }
    split; [lra |]. split; [lra |]. split; [discriminate |].
    intros _ F. unfold a, b. rewrite (wins_all l F).
    field. intro Z. fold b in Z. rewrite Z in Hb. discriminate.
Qed.

(** ** The history command *)

Lemma last_five_spec {A} (l : list A) :
  exists older, l = older ++ last_five l
                /\ List.length (last_five l) = Nat.min 5 (List.length l).
Proof.
  unfold last_five. exists (firstn (List.length l - 5) l). split.
  - symmetry. apply firstn_skipn.
  - rewrite length_skipn. lia.
Qed.

(** X22. [/history] answers "No trades yet." exactly when the history is
    empty; otherwise it lists the last five trades, or all of them when
    there are fewer, oldest first, each marked as won exactly when its pnl
    is positive; it changes nothing. *)
Theorem history_rows (w : world) :
  exists r,
    history w = (Ret r, w)
    /\ (r = None <-> trades w = [])
    /\ (forall rows, r = Some rows ->
          List.length rows = Nat.min 5 (List.length (trades w))
          /\ exists older recent,
               trades w = older ++ recent
               /\ map snd rows = map pnl recent
               /\ Forall (fun row => fst row = true <-> 0 < snd row) rows).
Proof.
  unfold history, bind, gets.
  destruct (trades w) as [| t ts] eqn:E.
  - eexists. split; [reflexivity |]. split; [tauto | discriminate].
  - eexists. split; [reflexivity |]. split; [split; discriminate |].
    intros rows [= <-]. rewrite length_map.
    destruct (last_five_spec (t :: ts)) as (older & Ho & Hl).
    split; [exact Hl |]. exists older, (last_five (t :: ts)).
    split; [exact Ho |]. split.
    + rewrite map_map. reflexivity.
    + apply Forall_forall. intros row I. apply in_map_iff in I as (x & <- & _).
      simpl. apply Qltb_lt.
Qed.

(** ** Subscription on connection *)

(** X23. Until a message with a market identifier has been processed the
    callback of a new connection sends nothing: after any sequence of
    messages without the ['market'] key, starting from the initial state,
    [on_open] makes no subscription request. *)
Theorem on_open_silent_before_first_id (clk : nat -> datetime)
  (msgs : list message) :
  Forall (fun d => msg_market d = None) msgs ->
  fst (on_open (snd (run_messages msgs (initial_world clk)))) = Ret None.
Proof.
  intro F.
  rewrite (run_messages_no_deadline msgs (initial_world clk) eq_refl F).
  reflexivity.
Qed.

Lemma on_open_silent_before_first_id_witness :
  fst (on_open (snd (run_messages [quote 0.849 0.851; quote 0.85 0.85]
                       (initial_world closing_clock)))) = Ret None.
Proof.
  apply (on_open_silent_before_first_id closing_clock).
  repeat constructor.
Defined.

(** X24. After a message that carries a non-empty market identifier,
    whatever else it carries, a new connection subscribes to that
    identifier and to nothing else. *)
Theorem on_open_after_message (data : message) (s : string) (w : world) :
  msg_market data = Some (Some s) ->
  s <> ""%string ->
  fst (on_open (snd (on_message data w)))
  = Ret (Some {| method := "subscribe"; params := [Some s] |}).
Proof.
  intros Hm Hs.
  assert (current_market_id (snd (on_message data w)) = Some s) as C.
  { destruct (on_message_grows data w) as (_ & _ & _ & _ & _ & C & _).
    rewrite C.
    destruct (market_id_eqb (Some s) (current_market_id w)) eqn:E.
    - rewrite track_market_same by (right; rewrite Hm; f_equal;
                                    now apply market_id_eqb_eq).
      simpl. symmetry. now apply market_id_eqb_eq.
    - now rewrite (track_market_rollover _ _ _ Hm E). }
  unfold on_open, bind, gets. rewrite C. simpl.
  apply String.eqb_neq in Hs. now rewrite Hs.
Qed.

Lemma on_open_after_message_witness :
  fst (on_open one_open)
  = Ret (Some {| method := "subscribe";
                 params := [Some "btc-updown-5m"%string] |}).
Proof.
  apply (on_open_after_message (first_message 0.851) "btc-updown-5m"
           (initial_world closing_clock) eq_refl).
  discriminate.
Defined.

(** ** Access to the commands *)

(** X25. The [restricted] decorator on the reset handler: for a user of
    the allowed list the handler runs, and resets the ledger; for any other
    user nothing changes. *)
Theorem restricted_reset (allowed : list Z) (user : Z) (w : world) :
  (In user allowed ->
   restricted allowed user reset w = reset w
   /\ balance (snd (restricted allowed user reset w)) = INITIAL_BALANCE
   /\ positions (snd (restricted allowed user reset w)) = []
   /\ trades (snd (restricted allowed user reset w)) = [])
  /\ (~ In user allowed ->
      restricted allowed user reset w = (Ret tt, w)).
Proof.
  split; intro H.
  - rewrite (restricted_allowed allowed user reset H). repeat split.
  - now apply restricted_denied.
Qed.

Lemma restricted_reset_witness :
  restricted [1001; 1002]%Z 1003%Z reset one_open = (Ret tt, one_open)
  /\ positions (snd (restricted [1001; 1002]%Z 1002%Z reset one_open)) = [].
Proof.
  destruct (restricted_reset [1001; 1002]%Z 1003%Z one_open) as [_ D].
  destruct (restricted_reset [1001; 1002]%Z 1002%Z one_open) as [A _].
  split.
  - apply D. intros [H | [H | []]]; discriminate.
  - apply A. right. left. reflexivity.
Defined.

(** ** Both sides of a quote *)


